(** * FreshFarm: cart normaliser, delivery packer and recommendation scorer

    A shallow embedding of [CartContext.tsx] (the cart provider: the
    optimiser, the three cart mutations and [packForDelivery]) and of
    [useCollaborativeFiltering.ts] (the recommendation hook), with the
    properties of the specification stated and settled against it.

    Conventions of the embedding.
    - A JavaScript [number] that carries a measure (price, weight, volume,
      score) is an exact rational [Q]: no rounding, no [NaN], no infinities.
      Where a statement is about the order the optimiser produces, which
      depends on how the host rounds a quotient, the optimiser and the
      mutations are also given over the division and the subtraction of
      the host ([optimizeCartItems_fl] and the like), of which the exact
      ones are an instance.
    - Identities and quantities, which the code uses as integers, are [Z];
      the result of [Number(x)] on an identity is an [option Z] whose [None]
      is [NaN].
    - An optional field ([weightKg?: number]) is an [option].
    - [Date.now()] and [Math.random()] are inputs: a clock reading and a
      supply of draws.
    - Notifications ([toast]) and the write to local storage are not part of
      the functions modelled here. *)

From Stdlib Require Import ZArith QArith Lqa List Permutation Sorted Lia Bool Ascii String.
From stdpp Require Import base option list gmap strings.

Local Open Scope Z_scope.

(** ** Products and cart lines *)

(** The [id] of a product as it arrives: [IdNum n] is a value that
    [Number] sends to the integer [n] (in a cart line it is the number
    [n] itself, since [addToCart] and the storage loader store
    [Number(id)]); [IdNaN raw] is any value that [Number] sends to [NaN]. *)
Inductive JsId :=
  | IdNum (n : Z)
  | IdNaN (raw : string).

(** [tags?: string[] | string] *)
Inductive Tags :=
  | TagArray (ts : list string)
  | TagString (s : string).

Record Product := mkProduct {
  id : JsId;
  name : string;
  image : string;
  category : string;
  description : string;
  price : Q;
  weightKg : option Q;
  volumeCm3 : option Q;
  tags : option Tags;
  onSale : option bool;
  salePrice : option Q;
}.

(** [interface CartItem extends Product { quantity: number }] *)
Record CartItem := mkCartItem {
  base :> Product;
  quantity : Z;
}.

(** [Number(x.id)]; [None] is [NaN]. *)
Definition Number_id (i : JsId) : option Z :=
  match i with
  | IdNum n => Some n
  | IdNaN _ => None
  end.

(** [a === b] on two results of [Number]: [NaN] equals nothing. *)
Definition strict_eq (a b : option Z) : bool :=
  match a, b with
  | Some x, Some y => x =? y
  | _, _ => false
  end.

(** [{ ...it, quantity: q }] *)
Definition with_quantity (it : CartItem) (q : Z) : CartItem :=
  {| base := base it; quantity := q |}.

(** [{ ...product, id: i }] *)
Definition with_id (p : Product) (i : JsId) : Product :=
  {| id := i; name := name p; image := image p; category := category p;
     description := description p; price := price p; weightKg := weightKg p;
     volumeCm3 := volumeCm3 p; tags := tags p; onSale := onSale p;
     salePrice := salePrice p |}.

(** ** Array primitives *)

(** The sign test a comparator result goes through: [c > 0]. *)
Definition positive_result (c : Q) : bool := negb (Qle_bool c 0).

Section ArraySort.
Context {A : Type}.
Variable compareFn : A -> A -> Q.

(** [x] is put before the first element it does not have to follow:
    it moves past [y] only when [compareFn x y > 0]. *)
Fixpoint sort_insert (x : A) (l : list A) : list A :=
  match l with
  | [] => [x]
  | y :: l' =>
      if positive_result (compareFn x y) then y :: sort_insert x l'
      else x :: y :: l'
  end.

(** [Array.prototype.sort(compareFn)]: the stable sort (ECMAScript 2019),
    as insertion from the right. *)
Fixpoint Array_sort (l : list A) : list A :=
  match l with
  | [] => []
  | x :: l' => sort_insert x (Array_sort l')
  end.

(** [x] may stay in front of [y]: the comparator does not ask for a swap. *)
Definition in_order (x y : A) : Prop := positive_result (compareFn x y) = false.
End ArraySort.

(** [Array.prototype.findIndex]: the first index whose element satisfies
    the predicate, [-1] when there is none. *)
Fixpoint findIndex_from {A : Type} (p : A -> bool) (l : list A) (i : Z) : Z :=
  match l with
  | [] => -1
  | x :: l' => if p x then i else findIndex_from p l' (i + 1)
  end.

Definition findIndex {A : Type} (p : A -> bool) (l : list A) : Z :=
  findIndex_from p l 0.

(** ** The cart normaliser *)

(** [a.price / a.quantity] *)
Definition efficiency (a : CartItem) : Q := (price a / inject_Z (quantity a))%Q.

Definition optimizeCartItems (cartItems : list CartItem) : list CartItem :=
  Array_sort
    (fun a b =>
       let aEfficiency := efficiency a in
       let bEfficiency := efficiency b in
       (aEfficiency - bEfficiency)%Q)
    (List.filter (fun item => 0 <? quantity item) cartItems).

(** The comparator of [optimizeCartItems], named. *)
Definition by_efficiency (a b : CartItem) : Q := (efficiency a - efficiency b)%Q.

(** ** Cart mutations: the updater each one passes to [setItems] *)

(** [addToCart(product, quantity = 1)], run at clock reading [now]. *)
Definition addToCart (product : Product) (quantity_arg : option Z) (now : Z)
    (currentItems : list CartItem) : list CartItem :=
  let quantity_ := default 1 quantity_arg in
  let parsedId := Number_id (id product) in
  let normalizedId := match parsedId with None => - now | Some n => n end in
  let existingIndex :=
    findIndex (fun it : CartItem => strict_eq (Number_id (id it)) (Some normalizedId))
      currentItems in
  if negb (existingIndex =? -1) then
    let updated :=
      imap (fun i (it : CartItem) =>
              if Z.of_nat i =? existingIndex
              then with_quantity it (quantity it + quantity_) else it)
        currentItems in
    optimizeCartItems updated
  else
    let newItem :=
      {| base := with_id product (IdNum normalizedId); quantity := quantity_ |} in
    optimizeCartItems (currentItems ++ [newItem]).

(** [it.id === productId] for a number [productId]. *)
Definition id_is (it : CartItem) (productId : Z) : bool :=
  match id it with
  | IdNum n => n =? productId
  | IdNaN _ => false
  end.

Definition removeFromCart (productId : Z) (currentItems : list CartItem)
    : list CartItem :=
  let updated := List.filter (fun it => negb (id_is it productId)) currentItems in
  optimizeCartItems updated.

Definition updateQuantity (productId : Z) (quantity_ : Z)
    (currentItems : list CartItem) : list CartItem :=
  if quantity_ <=? 0 then removeFromCart productId currentItems
  else
    let updated :=
      map (fun it => if id_is it productId then with_quantity it quantity_ else it)
        currentItems in
    optimizeCartItems updated.

(** ** The normaliser and the mutations over the arithmetic of the host

    [price / quantity] and [aEfficiency - bEfficiency] are operations on
    doubles: the quotient is rounded, and so is the difference. Here the
    two operations are parameters, [divide p q] for the double [p / q] and
    [subtract x y] for the double [x - y] (doubles being the rationals they
    denote). The text of the functions is that of the source. *)

Section HostArithmetic.
Variable divide : Q -> Z -> Q.
Variable subtract : Q -> Q -> Q.

(** [a.price / a.quantity] *)
Definition efficiency_fl (a : CartItem) : Q := divide (price a) (quantity a).

Definition optimizeCartItems_fl (cartItems : list CartItem) : list CartItem :=
  Array_sort
    (fun a b =>
       let aEfficiency := efficiency_fl a in
       let bEfficiency := efficiency_fl b in
       subtract aEfficiency bEfficiency)
    (List.filter (fun item => 0 <? quantity item) cartItems).

Definition addToCart_fl (product : Product) (quantity_arg : option Z) (now : Z)
    (currentItems : list CartItem) : list CartItem :=
  let quantity_ := default 1 quantity_arg in
  let parsedId := Number_id (id product) in
  let normalizedId := match parsedId with None => - now | Some n => n end in
  let existingIndex :=
    findIndex (fun it : CartItem => strict_eq (Number_id (id it)) (Some normalizedId))
      currentItems in
  if negb (existingIndex =? -1) then
    let updated :=
      imap (fun i (it : CartItem) =>
              if Z.of_nat i =? existingIndex
              then with_quantity it (quantity it + quantity_) else it)
        currentItems in
    optimizeCartItems_fl updated
  else
    let newItem :=
      {| base := with_id product (IdNum normalizedId); quantity := quantity_ |} in
    optimizeCartItems_fl (currentItems ++ [newItem]).

Definition removeFromCart_fl (productId : Z) (currentItems : list CartItem)
    : list CartItem :=
  let updated := List.filter (fun it => negb (id_is it productId)) currentItems in
  optimizeCartItems_fl updated.

Definition updateQuantity_fl (productId : Z) (quantity_ : Z)
    (currentItems : list CartItem) : list CartItem :=
  if quantity_ <=? 0 then removeFromCart_fl productId currentItems
  else
    let updated :=
      map (fun it => if id_is it productId then with_quantity it quantity_ else it)
        currentItems in
    optimizeCartItems_fl updated.

(** The one fact about the host's arithmetic the order rests on: the
    rounded difference of two efficiencies is positive exactly when the
    first is the larger. IEEE 754 subtraction has it on finite doubles: the
    rounded difference of two doubles is zero only when they are equal, and
    rounding keeps the sign. *)
Definition sign_exact : Prop :=
  forall a b : CartItem,
    positive_result (subtract (efficiency_fl a) (efficiency_fl b)) = true
    <-> (efficiency_fl b < efficiency_fl a)%Q.

(** What the normaliser establishes: positive quantities, and adjacent
    lines in non-decreasing order of the host's [price / quantity]. *)
Definition normalised_fl (l : list CartItem) : Prop :=
  Forall (fun it => 0 < quantity it) l /\
  forall (i : nat) (a b : CartItem),
    l !! i = Some a -> l !! S i = Some b ->
    (divide (price a) (quantity a) <= divide (price b) (quantity b))%Q.
End HostArithmetic.

(** The arithmetic without rounding. *)
Definition exact_divide (p : Q) (q : Z) : Q := (p / inject_Z q)%Q.
Definition exact_subtract (x y : Q) : Q := (x - y)%Q.

(** ** The delivery packer *)

Record PackOptions := mkPackOptions {
  maxWeightKg : option Q;
  maxVolumeCm3 : option Q;
}.

Record Box := mkBox {
  boxId : Z;
  items : list CartItem;
  totalWeightKg : Q;
  totalVolumeCm3 : Q;
}.

(** [options?.maxWeightKg ?? 10] and [options?.maxVolumeCm3 ?? 40000] *)
Definition maxWeightKg_of (options : option PackOptions) : Q :=
  default 10%Q (options ≫= maxWeightKg).

Definition maxVolumeCm3_of (options : option PackOptions) : Q :=
  default 40000%Q (options ≫= maxVolumeCm3).

(** The inner loop [for (let i = 0; i < it.quantity; i++) expanded.push(..)];
    [fuel] bounds the number of iterations. *)
Fixpoint push_units (fuel : nat) (i : Z) (it : CartItem)
    (expanded : list CartItem) : list CartItem :=
  match fuel with
  | O => expanded
  | S fuel' =>
      if i <? quantity it
      then push_units fuel' (i + 1) it (expanded ++ [with_quantity it 1])
      else expanded
  end.

(** [items.forEach(it => { for ... })]; the loop on [it] runs
    [quantity it] times when that is positive and not at all otherwise,
    so [Z.to_nat (quantity it)] is all the fuel it can use. *)
Definition expand (cartItems : list CartItem) : list CartItem :=
  fold_left
    (fun expanded it => push_units (Z.to_nat (quantity it)) 0 it expanded)
    cartItems [].

(** The expansion in the words of the specification: a line of quantity
    [N] becomes [N] unit lines of quantity 1, every other attribute kept. *)
Definition expand_spec (cartItems : list CartItem) : list CartItem :=
  flat_map (fun it => repeat (with_quantity it 1) (Z.to_nat (quantity it)))
    cartItems.

Definition metric (it : CartItem) : Q :=
  match volumeCm3 it with
  | Some v => v
  | None =>
      match weightKg it with
      | Some w => (w * 1000)%Q
      | None => 0%Q
      end
  end.

(** [unit.weightKg ?? 0] and [unit.volumeCm3 ?? 0] *)
Definition unitWeight (unit : CartItem) : Q := default 0%Q (weightKg unit).
Definition unitVolume (unit : CartItem) : Q := default 0%Q (volumeCm3 unit).

Definition fits (maxW maxV : Q) (box : Box) (unit : CartItem) : bool :=
  Qle_bool (totalWeightKg box + unitWeight unit) maxW
  && Qle_bool (totalVolumeCm3 box + unitVolume unit) maxV.

(** The body of the [if] inside [for (const box of boxes)]. *)
Definition add_to_box (box : Box) (unit : CartItem) : Box :=
  {| boxId := boxId box;
     items := items box ++ [unit];
     totalWeightKg := (totalWeightKg box + unitWeight unit)%Q;
     totalVolumeCm3 := (totalVolumeCm3 box + unitVolume unit)%Q |}.

(** [for (const box of boxes) { if (fits) { ...; placed = true; break } }]:
    [Some] of the updated boxes when the unit was placed, [None] when
    [placed] is still false at the end of the scan. *)
Fixpoint first_fit (maxW maxV : Q) (unit : CartItem) (boxes : list Box)
    : option (list Box) :=
  match boxes with
  | [] => None
  | box :: rest =>
      if fits maxW maxV box unit then Some (add_to_box box unit :: rest)
      else cons box <$> first_fit maxW maxV unit rest
  end.

(** One iteration of [bySizeDesc.forEach]. *)
Definition place_unit (maxW maxV : Q) (boxes : list Box) (unit : CartItem)
    : list Box :=
  match first_fit maxW maxV unit boxes with
  | Some boxes' => boxes'
  | None =>
      boxes ++ [ {| boxId := Z.of_nat (length boxes) + 1;
                    items := [unit];
                    totalWeightKg := unitWeight unit;
                    totalVolumeCm3 := unitVolume unit |} ]
  end.

(** [expanded.slice().sort((a, b) => metric(b) - metric(a))] *)
Definition bySizeDesc (cartItems : list CartItem) : list CartItem :=
  Array_sort (fun a b => (metric b - metric a)%Q) (expand cartItems).

Definition pack_units (maxW maxV : Q) (units : list CartItem) (boxes : list Box)
    : list Box :=
  fold_left (place_unit maxW maxV) units boxes.

Definition packForDelivery (cartItems : list CartItem)
    (options : option PackOptions) : list Box :=
  pack_units (maxWeightKg_of options) (maxVolumeCm3_of options)
    (bySizeDesc cartItems) [].

(** ** The packer over a store of objects

    The same function with the objects it touches made explicit: the heap
    holds the cart line objects, the React state [items] is an array of
    references into it, [{ ...it, quantity: 1 }] allocates a new object,
    and a box holds references. *)

Definition ref := nat.

Record State := mkState {
  heap : list CartItem;
  cart : list ref;
}.

#[export] Instance Product_inhabited : Inhabited Product :=
  populate (mkProduct (IdNaN "") "" "" "" "" 0%Q None None None None None).

#[export] Instance CartItem_inhabited : Inhabited CartItem :=
  populate (mkCartItem inhabitant 0).

(** Reading through a reference; a reference the heap does not hold reads
    as the blank object, which no reference of a well-formed state does. *)
Definition deref (h : list CartItem) (r : ref) : CartItem := h !!! r.

Definition well_formed (st : State) : Prop :=
  Forall (fun r => (r < length (heap st))%nat) (cart st).

Record RefBox := mkRefBox {
  rboxId : Z;
  ritems : list ref;
  rtotalWeightKg : Q;
  rtotalVolumeCm3 : Q;
}.

(** [expanded.push({ ...it, quantity: 1 })]: the copy is a new object at
    the next free address. *)
Fixpoint push_units_h (fuel : nat) (i : Z) (it : CartItem)
    (hx : list CartItem * list ref) : list CartItem * list ref :=
  match fuel with
  | O => hx
  | S fuel' =>
      if i <? quantity it
      then push_units_h fuel' (i + 1) it
             (hx.1 ++ [with_quantity it 1], hx.2 ++ [length hx.1])
      else hx
  end.

Definition expand_h (h : list CartItem) (cartRefs : list ref)
    : list CartItem * list ref :=
  fold_left
    (fun hx r =>
       let it := deref h r in
       push_units_h (Z.to_nat (quantity it)) 0 it hx)
    cartRefs (h, []).

Definition fits_h (h : list CartItem) (maxW maxV : Q) (box : RefBox) (u : ref)
    : bool :=
  Qle_bool (rtotalWeightKg box + unitWeight (deref h u)) maxW
  && Qle_bool (rtotalVolumeCm3 box + unitVolume (deref h u)) maxV.

Definition add_to_box_h (h : list CartItem) (box : RefBox) (u : ref) : RefBox :=
  {| rboxId := rboxId box;
     ritems := ritems box ++ [u];
     rtotalWeightKg := (rtotalWeightKg box + unitWeight (deref h u))%Q;
     rtotalVolumeCm3 := (rtotalVolumeCm3 box + unitVolume (deref h u))%Q |}.

Fixpoint first_fit_h (h : list CartItem) (maxW maxV : Q) (u : ref)
    (boxes : list RefBox) : option (list RefBox) :=
  match boxes with
  | [] => None
  | box :: rest =>
      if fits_h h maxW maxV box u then Some (add_to_box_h h box u :: rest)
      else cons box <$> first_fit_h h maxW maxV u rest
  end.

Definition place_unit_h (h : list CartItem) (maxW maxV : Q)
    (boxes : list RefBox) (u : ref) : list RefBox :=
  match first_fit_h h maxW maxV u boxes with
  | Some boxes' => boxes'
  | None =>
      boxes ++ [ {| rboxId := Z.of_nat (length boxes) + 1;
                    ritems := [u];
                    rtotalWeightKg := unitWeight (deref h u);
                    rtotalVolumeCm3 := unitVolume (deref h u) |} ]
  end.

(** The call as a state transformer: the state after it, and the boxes. *)
Definition packForDelivery_h (st : State) (options : option PackOptions)
    : State * list RefBox :=
  let maxW := maxWeightKg_of options in
  let maxV := maxVolumeCm3_of options in
  let '(h', expanded) := expand_h (heap st) (cart st) in
  let bySize :=
    Array_sort (fun a b => (metric (deref h' b) - metric (deref h' a))%Q)
      expanded in
  let boxes := fold_left (place_unit_h h' maxW maxV) bySize [] in
  ({| heap := h'; cart := cart st |}, boxes).

(** What a box of references holds. *)
Definition box_contents (h : list CartItem) (b : RefBox) : Box :=
  {| boxId := rboxId b;
     items := map (deref h) (ritems b);
     totalWeightKg := rtotalWeightKg b;
     totalVolumeCm3 := rtotalVolumeCm3 b |}.

(** ** Strings, as far as [normalizeTags] needs them (ASCII) *)

Definition lower_ascii (c : ascii) : ascii :=
  let n := nat_of_ascii c in
  if (65 <=? n)%nat && (n <=? 90)%nat then ascii_of_nat (n + 32) else c.

Fixpoint toLowerCase (s : string) : string :=
  match s with
  | EmptyString => EmptyString
  | String c s' => String (lower_ascii c) (toLowerCase s')
  end.

Definition is_space (c : ascii) : bool :=
  let n := nat_of_ascii c in
  ((9 <=? n)%nat && (n <=? 13)%nat) || (n =? 32)%nat.

Fixpoint trimStart (s : string) : string :=
  match s with
  | EmptyString => EmptyString
  | String c s' => if is_space c then trimStart s' else s
  end.

Fixpoint string_rev_onto (s acc : string) : string :=
  match s with
  | EmptyString => acc
  | String c s' => string_rev_onto s' (String c acc)
  end.

Definition trim (s : string) : string :=
  string_rev_onto (trimStart (string_rev_onto (trimStart s) EmptyString))
    EmptyString.

(** The separators of [/[,|;]/]. *)
Definition is_separator (c : ascii) : bool :=
  let n := nat_of_ascii c in
  (n =? 44)%nat || (n =? 124)%nat || (n =? 59)%nat.

(** [s.split(/[,|;]/)] *)
Fixpoint split_tags (s : string) : list string :=
  match s with
  | EmptyString => [EmptyString]
  | String c s' =>
      if is_separator c then EmptyString :: split_tags s'
      else
        match split_tags s' with
        | [] => [String c EmptyString]
        | w :: ws => String c w :: ws
        end
  end.

(** A string is truthy when it is not empty. *)
Definition truthy (s : string) : bool :=
  match s with
  | EmptyString => false
  | String _ _ => true
  end.

Definition normalizeTags (p : Product) : list string :=
  match tags p with
  | None => []
  | Some (TagArray ts) => map toLowerCase ts
  | Some (TagString s) =>
      if truthy s
      then List.filter truthy (map (fun t => toLowerCase (trim t)) (split_tags s))
      else []
  end.

(** ** [Map] and [Set] where the code iterates them: insertion order *)

Section InsertionOrder.
Context {K V : Type} `{EqDecision K}.

Fixpoint Map_get (m : list (K * V)) (k : K) : option V :=
  match m with
  | [] => None
  | (k', v) :: m' => if decide (k = k') then Some v else Map_get m' k
  end.

(** An existing key keeps its place; a new key goes last. *)
Fixpoint Map_set (m : list (K * V)) (k : K) (v : V) : list (K * V) :=
  match m with
  | [] => [(k, v)]
  | (k', v') :: m' =>
      if decide (k = k') then (k, v) :: m' else (k', v') :: Map_set m' k v
  end.

Definition Set_add (s : list K) (k : K) : list K :=
  if bool_decide (k ∈ s) then s else s ++ [k].
End InsertionOrder.

(** [l.slice(0, e)]: a negative [e] counts from the end. *)
Definition slice0 {A : Type} (l : list A) (e : Z) : list A :=
  let len := Z.of_nat (length l) in
  let k := if e <? 0 then Z.max (len + e) 0 else Z.min e len in
  take (Z.to_nat k) l.

(** ** Randomness: [Math.floor(Math.random() * bound)] from a supply of
    draws; a draw [r] gives [r mod bound], an exhausted supply gives 0. *)
Definition random_below (bound : nat) (draws : list nat) : nat * list nat :=
  match draws with
  | [] => (O, [])
  | r :: draws' => ((r mod bound)%nat, draws')
  end.

(** [[a[i], a[j]] = [a[j], a[i]]] *)
Definition swap {A : Type} (a : list A) (i j : nat) : list A :=
  match a !! i, a !! j with
  | Some x, Some y => <[j := x]> (<[i := y]> a)
  | _, _ => a
  end.

(** [for (let i = start; i > 0; i--) { j = random below i + 1; swap }] *)
Fixpoint shuffle_from {A : Type} (i : nat) (a : list A) (draws : list nat)
    : list A * list nat :=
  match i with
  | O => (a, draws)
  | S i' =>
      let '(j, draws') := random_below (S i) draws in
      shuffle_from i' (swap a i j) draws'
  end.

Definition shuffle {A : Type} (a : list A) (draws : list nat)
    : list A * list nat :=
  shuffle_from (length a - 1) a draws.

(** ** The recommendation scorer *)

Record UserHistory := mkUserHistory {
  userId : string;
  history_items : list Z;
}.

Definition mockPurchaseHistory : list UserHistory :=
  [ mkUserHistory "user1" [1; 2];
    mkUserHistory "user2" [1; 3];
    mkUserHistory "user3" [2; 3];
    mkUserHistory "user4" [1; 2; 3];
    mkUserHistory "user5" [1; 2];
    mkUserHistory "user6" [2; 3] ].

Record Recommendation := mkRecommendation {
  product : Product;
  reason : string;
  score : Q;
}.

Record RecOptions := mkRecOptions {
  browsingHistory : option (list Z);
  minRecommendations : option Z;
  maxRecommendations : option Z;
  purchasedIds : option (list Z);
}.

(** One element of the array the recommendation service answers with:
    [Number(r.id)], [r.reason] and [Number(r.score)] ([None]: absent or
    [NaN]). *)
Record ServerRec := mkServerRec {
  server_id : option Z;
  server_reason : option string;
  server_score : option Q;
}.

(** The accumulator of the local computation: [recs] and [seen]. *)
Record Acc := mkAcc {
  recs : list Recommendation;
  seen : gset (option Z);
}.

Definition reasonPriority (r : string) : option Z :=
  if String.eqb r "bought together" then Some 4
  else if String.eqb r "browsing history" then Some 3
  else if String.eqb r "same tag" then Some 2
  else if String.eqb r "same category" then Some 1
  else None.

Section Scorer.
(** [String.prototype.localeCompare], which depends on the host's
    collation, is a parameter. *)
Variable localeCompare : string -> string -> Q.
Variable cartItems : list CartItem.
Variable allProducts : list Product.
Variable options : option RecOptions.

Definition MIN : Z := default 5 (options ≫= minRecommendations).
Definition MAX : Z := default 10 (options ≫= maxRecommendations).

Definition productById : gmap (option Z) Product :=
  fold_left (fun m p => <[Number_id (id p) := p]> m) allProducts ∅.

Definition cartIds : gset (option Z) :=
  list_to_set (map (fun i : CartItem => Number_id (id i)) cartItems).

Definition purchasedIdSet : gset (option Z) :=
  list_to_set (map Some (default [] (options ≫= purchasedIds))).

Definition push (pid : option Z) (reason_ : string) (score_ : Q) (acc : Acc)
    : Acc :=
  if bool_decide (pid ∈ cartIds) || bool_decide (pid ∈ seen acc)
     || bool_decide (pid ∈ purchasedIdSet)
  then acc
  else
    match productById !! pid with
    | None => acc
    | Some prod =>
        {| recs := recs acc ++ [mkRecommendation prod reason_ score_];
           seen := {[pid]} ∪ seen acc |}
    end.

(** The co-purchase counts [freq], in insertion order. *)
Definition freq : list (Z * Z) :=
  fold_left
    (fun fq h =>
       if existsb (fun i => bool_decide (Some i ∈ cartIds)) (history_items h)
       then
         fold_left
           (fun fq i =>
              if bool_decide (Some i ∈ cartIds) then fq
              else Map_set fq i (default 0 (Map_get fq i) + 1))
           (history_items h) fq
       else fq)
    mockPurchaseHistory [].

Definition bought_together (acc : Acc) : Acc :=
  fold_left
    (fun acc '(i, count) => push (Some i) "bought together" (inject_Z count) acc)
    (Array_sort (fun x y => inject_Z (y.2 - x.2)) freq)
    acc.

Definition browsing : list Z := default [] (options ≫= browsingHistory).

(** The tags of the browsed products: [btags] in one branch, [seedTags]
    (iterated later, so in insertion order) in the other. *)
Definition browsed_tags : list string :=
  fold_left
    (fun ts bid =>
       match productById !! Some bid with
       | None => ts
       | Some bp => fold_left Set_add (normalizeTags bp) ts
       end)
    browsing [].

Definition browsing_history (acc : Acc) : Acc :=
  if (0 <? length browsing)%nat then
    let btags := browsed_tags in
    if (0 <? length btags)%nat then
      fold_left
        (fun acc p =>
           let pid := Number_id (id p) in
           if bool_decide (pid ∈ cartIds) || bool_decide (pid ∈ seen acc)
           then acc
           else
             let shared :=
               length (List.filter (fun t => bool_decide (t ∈ btags))
                         (normalizeTags p)) in
             if (0 <? shared)%nat
             then push pid "browsing history" (inject_Z (Z.of_nat shared)) acc
             else acc)
        allProducts acc
    else acc
  else acc.

Definition cartCategories : gset string :=
  list_to_set (map (fun i : CartItem => category i) cartItems).

(** [for (const p of allProducts) { ...continue...; push; if (recs.length
    >= MAX) break; }] *)
Fixpoint same_category (ps : list Product) (acc : Acc) : Acc :=
  match ps with
  | [] => acc
  | p :: ps' =>
      let pid := Number_id (id p) in
      if bool_decide (pid ∈ cartIds) || bool_decide (pid ∈ seen acc)
      then same_category ps' acc
      else
        let acc' :=
          if bool_decide (category p ∈ cartCategories)
          then push pid "same category" 1%Q acc else acc in
        if MAX <=? Z.of_nat (length (recs acc')) then acc'
        else same_category ps' acc'
  end.

Definition nonempty_cart (acc : Acc) : Acc :=
  let acc1 := browsing_history (bought_together acc) in
  if Z.of_nat (length (recs acc1)) <? MIN then same_category allProducts acc1
  else acc1.

(** The most frequent tags of the catalogue: [tagFreq], sorted, first 3. *)
Definition tagFreq : list (string * Z) :=
  fold_left
    (fun tf p =>
       fold_left (fun tf t => Map_set tf t (default 0 (Map_get tf t) + 1))
         (normalizeTags p) tf)
    allProducts [].

Definition seedTags : list string :=
  let fromHistory := if (0 <? length browsing)%nat then browsed_tags else [] in
  if (length fromHistory =? 0)%nat then
    fold_left (fun ts e => Set_add ts e.1)
      (slice0 (Array_sort (fun x y => inject_Z (y.2 - x.2)) tagFreq) 3)
      fromHistory
  else fromHistory.

(** [for (const tag of tagsArr) { filter; shuffle; slice(0, 2).forEach(push);
    if (recs.length >= MAX) break; }], threading the random draws. *)
Fixpoint same_tag (tagsArr : list string) (draws : list nat) (acc : Acc)
    : Acc :=
  match tagsArr with
  | [] => acc
  | tag :: tagsArr' =>
      let candidates :=
        List.filter
          (fun p =>
             bool_decide (tag ∈ normalizeTags p)
             && negb (bool_decide (Number_id (id p) ∈ cartIds))
             && negb (bool_decide (Number_id (id p) ∈ seen acc)))
          allProducts in
      let '(shuffled, draws') := shuffle candidates draws in
      let acc' :=
        fold_left (fun acc p => push (Number_id (id p)) "same tag" 1%Q acc)
          (slice0 shuffled 2) acc in
      if MAX <=? Z.of_nat (length (recs acc')) then acc'
      else same_tag tagsArr' draws' acc'
  end.

(** The recommendations the branches produce, before the final sort. *)
Definition collect (draws : list nat) : list Recommendation :=
  let acc0 := {| recs := []; seen := ∅ |} in
  recs (if (0 <? length cartItems)%nat then nonempty_cart acc0
        else same_tag seedTags draws acc0).

Definition compare_recs (a b : Recommendation) : Q :=
  if negb (Qeq_bool (score b) (score a)) then (score b - score a)%Q
  else
    let pa := default 0 (reasonPriority (reason a)) in
    let pb := default 0 (reasonPriority (reason b)) in
    if negb (pb =? pa) then inject_Z (pb - pa)
    else localeCompare (name (product a)) (name (product b)).

Definition localCompute (draws : list nat) : list Recommendation :=
  let sorted := Array_sort compare_recs (collect draws) in
  slice0 sorted (Z.max MIN (Z.min MAX (Z.of_nat (length sorted)))).

(** [res.map(r => ...).filter(Boolean)] *)
Definition mapped (res : list ServerRec) : list Recommendation :=
  omap
    (fun r =>
       match List.find
               (fun p => strict_eq (Number_id (id p)) (server_id r))
               allProducts with
       | None => None
       | Some prod =>
           Some {| product := prod;
                   reason :=
                     match server_reason r with
                     | Some s => if truthy s then s else "server"
                     | None => "server"
                     end;
                   score := default 0%Q (server_score r) |}
       end)
    res.

(** The [recommendations] the hook settles on. [remote] is what the
    service returned: [None] when [api.getRecommendations] is not a
    function, when the call failed, or when the answer is not an array. *)
Definition useRecommendations (remote : option (list ServerRec))
    (draws : list nat) : list Recommendation :=
  match remote with
  | Some res =>
      if (0 <? length (mapped res))%nat
      then slice0 (mapped res) (default 10 (options ≫= maxRecommendations))
      else localCompute draws
  | None => localCompute draws
  end.
End Scorer.

(** ** Predicates of the statements, and sample data *)

(** A product with the fields the examples vary. *)
Definition sample_product (i : JsId) (nm cat : string) (pr : Q)
    (w v : option Q) (tg : option Tags) : Product :=
  mkProduct i nm "" cat "" pr w v tg None None.

Definition carrots : CartItem :=
  mkCartItem (sample_product (IdNum 1) "carrots" "vegetables" 10%Q None None None) 2.

Definition spinach : CartItem :=
  mkCartItem (sample_product (IdNum 2) "spinach" "vegetables" 3%Q None None None) 1.

(** Two different products whose ids are not numeric. *)
Definition mystery_apple : Product :=
  sample_product (IdNaN "abc") "apple" "fruit" 4%Q None None None.

Definition mystery_pear : Product :=
  sample_product (IdNaN "xyz") "pear" "fruit" 6%Q None None None.

(** A box respects the capacities, or holds exactly one unit. *)
Definition box_ok (maxW maxV : Q) (b : Box) : Prop :=
  ((totalWeightKg b <= maxW)%Q /\ (totalVolumeCm3 b <= maxV)%Q)
  \/ length (items b) = 1%nat.

(** Every unit of the boxes, box after box. *)
Definition packed_units (boxes : list Box) : list CartItem :=
  concat (map items boxes).

(** "A unit of zero weight and zero volume goes into box 1 whenever a box
    exists", for one run of the packer: at any point of the run where the
    next unit [u] is such a unit and the boxes so far are [b :: rest], the
    boxes after [u] are [b' :: rest] with [u] added to the first. *)
Definition zero_units_join_first_box (cartItems : list CartItem)
    (options : option PackOptions) : Prop :=
  let maxW := maxWeightKg_of options in
  let maxV := maxVolumeCm3_of options in
  forall (pre post : list CartItem) (u : CartItem) (b : Box) (rest : list Box),
    bySizeDesc cartItems = pre ++ u :: post ->
    pack_units maxW maxV pre [] = b :: rest ->
    (unitWeight u == 0)%Q -> (unitVolume u == 0)%Q ->
    exists b', pack_units maxW maxV (pre ++ [u]) [] = b' :: rest
               /\ items b' = items b ++ [u].

(** A unit heavier than the default box, one of known small weight, and
    one whose weight and volume are both zero. *)
Definition pumpkin : CartItem :=
  mkCartItem
    (sample_product (IdNum 3) "pumpkin" "vegetables" 20%Q (Some 15%Q) None None) 1.

Definition potatoes : CartItem :=
  mkCartItem
    (sample_product (IdNum 4) "potatoes" "vegetables" 8%Q (Some 3%Q) None None) 1.

Definition voucher : CartItem :=
  mkCartItem
    (sample_product (IdNum 5) "voucher" "gifts" 5%Q (Some 0%Q) (Some 0%Q) None) 1.

(** Every reference held by the boxes, box after box. *)
Definition packed_refs (boxes : list RefBox) : list ref :=
  concat (map ritems boxes).

(** A state with two cart lines, at addresses 0 and 1. *)
Definition sample_state : State :=
  {| heap := [carrots; spinach]; cart := [0%nat; 1%nat] |}.

(** The ranked list the hook cuts its answer from: the mapped answer of
    the service when there is a usable one, the sorted local
    recommendations otherwise. *)
Definition ranked (localeCompare : string -> string -> Q)
    (cartItems : list CartItem) (allProducts : list Product)
    (options : option RecOptions) (remote : option (list ServerRec))
    (draws : list nat) : list Recommendation :=
  let localRanked :=
    Array_sort (compare_recs localeCompare)
      (collect cartItems allProducts options draws) in
  match remote with
  | Some res =>
      if (0 <? length (mapped allProducts res))%nat
      then mapped allProducts res else localRanked
  | None => localRanked
  end.

(** A recommendation the exclusion rule lets through: the id of its
    product is the id of no cart line and is not among [purchasedIds]. *)
Definition allowed (cartItems : list CartItem) (options : option RecOptions)
    (r : Recommendation) : Prop :=
  let pid := Number_id (id (product r)) in
  (forall i : CartItem, i ∈ cartItems -> Number_id (id i) <> pid)
  /\ (forall n : Z, n ∈ default [] (options ≫= purchasedIds) -> Some n <> pid).

(** Every recommendation gathered so far passes the exclusion rule. *)
Definition clean (cartItems : list CartItem) (options : option RecOptions)
    (acc : Acc) : Prop :=
  Forall (allowed cartItems options) (recs acc).

(** A collation to run the examples with: order by character codes. *)
Definition codeCompare (a b : string) : Q :=
  match String.compare a b with
  | Lt => (-1)%Q
  | Eq => 0%Q
  | Gt => 1%Q
  end.

(** The catalogue of the examples: products 1 to 6, one category. *)
Definition catalogue : list Product :=
  map (fun i => sample_product (IdNum i) "produce" "vegetables" 1%Q None None None)
    [1; 2; 3; 4; 5; 6].

(** A cart holding product 2. *)
Definition cart_with_2 : list CartItem :=
  [mkCartItem
     (sample_product (IdNum 2) "produce" "vegetables" 1%Q None None None) 1].

(** The products of the worked examples: product 7 at price 100, a crate
    of 30000 cubic centimetres, and a line of four sacks of 3 kg. *)
Definition product7 : Product :=
  sample_product (IdNum 7) "honey" "pantry" 100%Q None None None.

Definition crates : CartItem :=
  mkCartItem
    (sample_product (IdNum 8) "crate" "pantry" 12%Q None (Some 30000%Q) None) 2.

Definition sacks : CartItem :=
  mkCartItem
    (sample_product (IdNum 9) "sack" "pantry" 9%Q (Some 3%Q) None None) 4.

(** ** The rest of the cart provider *)

(** [items.reduce((count, item) => count + item.quantity, 0)] *)
Definition getCartCount (cartItems : list CartItem) : Z :=
  fold_left (fun count (item : CartItem) => count + quantity item) cartItems 0.

(** [createItemsHashMap]: a [Map] from [item.id] to the item, filled with
    [set] in list order. The ids of cart lines are numbers, so the key is
    [Number_id (id item)], [NaN] being one key. *)
Definition createItemsHashMap (cartItems : list CartItem)
    : gmap (option Z) CartItem :=
  fold_left (fun hashMap (item : CartItem) =>
               <[Number_id (id item) := item]> hashMap)
    cartItems ∅.

(** [clearCart]: the new value of [items]. *)
Definition clearCart : list CartItem := [].

(** The numeric ids of the lines of a cart, in order. *)
Definition numeric_ids (cartItems : list CartItem) : list Z :=
  omap (fun it : CartItem => Number_id (id it)) cartItems.

(** The id under which [addToCart] files a product at clock reading [now]. *)
Definition normalizedId_of (product_ : Product) (now : Z) : Z :=
  match Number_id (id product_) with
  | None => - now
  | Some n => n
  end.

(** ** Measures used in the statements about the packer *)

(** The weights, and the volumes, of a list of units added up. *)
Definition sum_weight (units : list CartItem) : Q :=
  fold_right (fun u acc => (unitWeight u + acc)%Q) 0%Q units.

Definition sum_volume (units : list CartItem) : Q :=
  fold_right (fun u acc => (unitVolume u + acc)%Q) 0%Q units.

(** The running totals of a box are the sums over its units, and the box
    is not empty. *)
Definition box_sound (b : Box) : Prop :=
  (totalWeightKg b == sum_weight (items b))%Q
  /\ (totalVolumeCm3 b == sum_volume (items b))%Q
  /\ items b <> [].

(** No unit has a negative weight or a negative volume. *)
Definition nonnegative_sizes (units : list CartItem) : Prop :=
  Forall (fun u => (0 <= unitWeight u)%Q /\ (0 <= unitVolume u)%Q) units.

(** No line is sized by its weight: the sizing metric of every line is its
    volume, or 0 when it has neither volume nor weight, so that computing it
    involves no product. *)
Definition sized_without_product (cartItems : list CartItem) : Prop :=
  Forall (fun it : CartItem => is_Some (volumeCm3 it) \/ weightKg it = None)
    cartItems.

(** [metric] does not increase from [a] to [b]. *)
Definition larger_first (a b : CartItem) : Prop := (metric b <= metric a)%Q.

(** The unit that opened box [later] does not fit box [earlier]. *)
Definition opener_does_not_fit (maxW maxV : Q) (earlier later : Box) : Prop :=
  forall u : CartItem,
    head (items later) = Some u -> fits maxW maxV earlier u = false.

(** ** Measures used in the statements about the scorer *)

(** The ids of the recommended products, in order. *)
Definition rec_ids (rs : list Recommendation) : list (option Z) :=
  map (fun r => Number_id (id (product r))) rs.

(** [reasonPriority[r.reason] ?? 0] *)
Definition priority_of (r : Recommendation) : Z :=
  default 0 (reasonPriority (reason r)).

(** [a] may be ranked before [b]: a higher score, or the same score and a
    reason of at least the same priority. *)
Definition rank_order (a b : Recommendation) : Prop :=
  (score b < score a)%Q
  \/ ((score b == score a)%Q /\ priority_of b <= priority_of a).

(** What the local computation hands to [push]: a positive score and one
    of the four reasons. *)
Definition local_signal (reason_ : string) (score_ : Q) : Prop :=
  (0 < score_)%Q /\ is_Some (reasonPriority reason_).

(** ** The cart page: what it shows of the recommendations *)

(** An element of the list handed to [RecommendedProducts]. *)
Record RecItem := mkRecItem {
  item_product : Product;
  item_reason : string;
  item_score : Q;
  cartQuantity : Z;
}.

Section CartPage.
(** The cart [items], the ids read from the stored orders, and the
    products loaded from the admin catalogue. *)
Variable cartItems : list CartItem.
Variable purchased : list Z.
Variable adminProducts : list Product.

(** [{ product: r.product, reason: r.reason || "Recommended",
       score: r.score || 0, cartQuantity: cartItem ? cartItem.quantity : 0 }] *)
Definition format_one (r : Recommendation) : RecItem :=
  let pid := Number_id (id (product r)) in
  let cartItem :=
    List.find (fun it : CartItem => strict_eq (Number_id (id it)) pid)
      cartItems in
  {| item_product := product r;
     item_reason := if truthy (reason r) then reason r else "Recommended";
     item_score := if Qeq_bool (score r) 0 then 0%Q else score r;
     cartQuantity := match cartItem with
                     | Some it => quantity it
                     | None => 0
                     end |}.

(** [for (const r of recs) { if (seen.has(pid)) continue; seen.add(pid);
    formatted.push(...); if (formatted.length >= 10) break; }] *)
Fixpoint format_recommended (recs_ : list Recommendation)
    (seen_ : gset (option Z)) (formatted : list RecItem)
    : gset (option Z) * list RecItem :=
  match recs_ with
  | [] => (seen_, formatted)
  | r :: rest =>
      let pid := Number_id (id (product r)) in
      if bool_decide (pid ∈ seen_) then format_recommended rest seen_ formatted
      else
        let seen' := {[pid]} ∪ seen_ in
        let formatted' := formatted ++ [format_one r] in
        if (10 <=? length formatted')%nat then (seen', formatted')
        else format_recommended rest seen' formatted'
  end.

(** [for (const p of pool) { if (seen.has(pid)) continue;
    formatted.push({ product: p, reason: "Popular", score: 0,
    cartQuantity: 0 }); seen.add(pid); if (formatted.length >= 5) break; }] *)
Fixpoint pad_popular (pool : list Product) (seen_ : gset (option Z))
    (formatted : list RecItem) : gset (option Z) * list RecItem :=
  match pool with
  | [] => (seen_, formatted)
  | p :: rest =>
      let pid := Number_id (id p) in
      if bool_decide (pid ∈ seen_) then pad_popular rest seen_ formatted
      else
        let formatted' := formatted ++ [mkRecItem p "Popular" 0%Q 0] in
        let seen' := {[pid]} ∪ seen_ in
        if (5 <=? length formatted')%nat then (seen', formatted')
        else pad_popular rest seen' formatted'
  end.

(** The ids the padding leaves out: those of the cart and the purchased. *)
Definition excluded : gset (option Z) :=
  list_to_set (map (fun i : CartItem => Number_id (id i)) cartItems)
  ∪ list_to_set (map Some purchased).

Definition formatRecs (recommendations : list Recommendation) : list RecItem :=
  let recs_ := slice0 recommendations 10 in
  let '(seen_, formatted) := format_recommended recs_ ∅ [] in
  if (length formatted <? 5)%nat then
    let pool :=
      List.filter (fun p => negb (bool_decide (Number_id (id p) ∈ excluded)))
        adminProducts in
    (pad_popular pool seen_ formatted).2
  else formatted.

(** The list after the fallback: when nothing was computed and there are
    admin products, three of them at random that are neither in the cart
    ([===] on the ids) nor purchased ([includes]). *)
Definition displayedRecommendations (recommendations : list Recommendation)
    (draws : list nat) : list RecItem :=
  let displayed := formatRecs recommendations in
  if (length displayed =? 0)%nat && (0 <? length adminProducts)%nat then
    let pool :=
      List.filter
        (fun p =>
           negb (existsb
                   (fun i : CartItem =>
                      strict_eq (Number_id (id i)) (Number_id (id p)))
                   cartItems)
           && negb (bool_decide (Number_id (id p) ∈ map Some purchased)))
        adminProducts in
    let a := (shuffle pool draws).1 in
    map (fun p => mkRecItem p "Popular" 0%Q 0) (slice0 a 3)
  else displayed.
End CartPage.

(** The ids of the products shown, in order. *)
Definition item_ids (l : list RecItem) : list (option Z) :=
  map (fun x => Number_id (id (item_product x))) l.

(** [seen] holds exactly the ids of the products listed so far, each of
    them once. *)
Definition seen_matches (seen_ : gset (option Z)) (formatted : list RecItem)
    : Prop :=
  NoDup (item_ids formatted)
  /\ (forall k, k ∈ seen_ <-> k ∈ item_ids formatted).

(** Where an element of the list comes from: a recommendation of the hook,
    shown with the quantity of the first cart line of that id (0 when there
    is none), or a "Popular" admin product that is neither in the cart nor
    purchased. *)
Definition item_origin (cartItems : list CartItem) (purchased : list Z)
    (adminProducts : list Product) (recommendations : list Recommendation)
    (x : RecItem) : Prop :=
  (exists r : Recommendation,
     r ∈ recommendations /\ x = format_one cartItems r)
  \/ (x = mkRecItem (item_product x) "Popular" 0%Q 0
      /\ item_product x ∈ adminProducts
      /\ (forall i : CartItem, i ∈ cartItems ->
            Number_id (id i) <> Number_id (id (item_product x)))
      /\ (forall n : Z, n ∈ purchased ->
            Some n <> Number_id (id (item_product x)))).

(** ** The hook across renders

    The hook returns the state [recommendations]; its effect, which runs
    after the render, stores a new value in it, so what a render returns is
    what the effect of the render before it stored ([useState([])] at the
    first render). [src/lib/api.ts] defines no [getRecommendations]: the
    test [typeof api.getRecommendations === "function"] fails, the service
    is never asked, and the effect stores [localCompute]. A render whose
    dependencies did not change, after which the effect does not run again,
    is the same [Render] twice: the effect would store the same value. *)

Record Render := mkRender {
  render_cartItems : list CartItem;
  render_allProducts : list Product;
  render_options : option RecOptions;
  (** the draws of [Math.random] while this render computes
      [localCompute], the value its effect then stores *)
  render_draws : list nat;
}.

(** [setRecommendations(localCompute)] *)
Definition effect_stores (localeCompare : string -> string -> Q) (r : Render)
    : list Recommendation :=
  useRecommendations localeCompare (render_cartItems r) (render_allProducts r)
    (render_options r) None (render_draws r).

(** The value of [recommendations] each render returns, [state] being the
    state before the first of them. *)
Fixpoint hook_returns (localeCompare : string -> string -> Q)
    (state : list Recommendation) (renders : list Render)
    : list (list Recommendation) :=
  match renders with
  | [] => []
  | r :: rest =>
      state :: hook_returns localeCompare (effect_stores localeCompare r) rest
  end.

(** "No product of the cart or of [purchasedIds] ever appears in the
    output", for one mounted hook: at every render, what the hook returns
    passes the exclusion rule for the cart and the options of that render. *)
Definition never_returns_excluded (localeCompare : string -> string -> Q)
    (renders : list Render) : Prop :=
  forall (k : nat) (r : Render) (returned : list Recommendation),
    renders !! k = Some r ->
    hook_returns localeCompare [] renders !! k = Some returned ->
    Forall (allowed (render_cartItems r) (render_options r)) returned.

(** The cart page with product 2 in the cart and product 5 purchased, and
    the same page after product 1, which was recommended, has been added. *)
Definition render_before : Render :=
  mkRender cart_with_2 catalogue
    (Some (mkRecOptions None None None (Some [5]))) [].

Definition render_after : Render :=
  mkRender
    (addToCart
       (sample_product (IdNum 1) "produce" "vegetables" 1%Q None None None)
       None 0 cart_with_2)
    catalogue (Some (mkRecOptions None None None (Some [5]))) [].

(** * Properties *)

(** ** The worked examples of the specification *)

Example addToCart_on_empty_cart :
  addToCart product7 (Some 2) 0 [] = [mkCartItem product7 2].
Proof. reflexivity. Qed.

Example addToCart_merges_same_id :
  addToCart product7 (Some 3) 0 (addToCart product7 (Some 2) 0 [])
  = [mkCartItem product7 5].
Proof. reflexivity. Qed.

Example packForDelivery_two_crates :
  map (fun b => (boxId b, length (items b), totalVolumeCm3 b))
    (packForDelivery [crates] None)
  = [(1, 1%nat, 30000%Q); (2, 1%nat, 30000%Q)].
Proof. reflexivity. Qed.

Example packForDelivery_four_sacks :
  map (fun b => (boxId b, length (items b), totalWeightKg b))
    (packForDelivery [sacks] None)
  = [(1, 3%nat, (3 + 3 + 3)%Q); (2, 1%nat, 3%Q)].
Proof. reflexivity. Qed.

Example normalizeTags_of_string :
  normalizeTags
    (sample_product (IdNum 1) "" "" 0%Q None None
       (Some (TagString " Fresh, green|Local;; ")))
  = ["fresh"; "green"; "local"].
Proof. reflexivity. Qed.

Example useRecommendations_local_sample :
  map (fun r => (id (product r), reason r))
    (useRecommendations codeCompare cart_with_2 catalogue
       (Some (mkRecOptions None None None (Some [5]))) None [])
  = [(IdNum 1, "bought together"); (IdNum 3, "bought together");
     (IdNum 4, "same category"); (IdNum 6, "same category")].
Proof. vm_compute. reflexivity. Qed.

(** ** The sort *)

Lemma positive_result_false (c : Q) : positive_result c = false <-> (c <= 0)%Q.
Proof.
  unfold positive_result. rewrite negb_false_iff. apply Qle_bool_iff.
Qed.

Lemma positive_result_true (c : Q) : positive_result c = true <-> (0 < c)%Q.
Proof.
  unfold positive_result. rewrite negb_true_iff.
  split; intros H.
  - apply Qnot_le_lt. intros Hle. apply Qle_bool_iff in Hle. congruence.
  - destruct (Qle_bool c 0) eqn:E; [|reflexivity].
    apply Qle_bool_iff in E. lra.
Qed.

Section ArraySortFacts.
Context {A : Type}.
Variable compareFn : A -> A -> Q.

Lemma sort_insert_perm (x : A) (l : list A) :
  Permutation (sort_insert compareFn x l) (x :: l).
Proof.
  induction l as [|y l IH]; simpl; [reflexivity|].
  destruct (positive_result (compareFn x y)); [|reflexivity].
  rewrite IH. apply perm_swap.
Qed.

Lemma Array_sort_perm (l : list A) : Permutation (Array_sort compareFn l) l.
Proof.
  induction l as [|x l IH]; simpl; [reflexivity|].
  rewrite sort_insert_perm. now constructor.
Qed.

Lemma Array_sort_length (l : list A) :
  length (Array_sort compareFn l) = length l.
Proof. apply Permutation_length, Array_sort_perm. Qed.

Lemma Array_sort_elem_of (x : A) (l : list A) :
  x ∈ Array_sort compareFn l <-> x ∈ l.
Proof. now rewrite Array_sort_perm. Qed.

(** A list already in order is left as it is: the sort is stable and
    moves nothing it does not have to. *)
Lemma Array_sort_sorted (l : list A) :
  Sorted (in_order compareFn) l -> Array_sort compareFn l = l.
Proof.
  induction 1 as [|x l Hs IH Hhd]; simpl; [reflexivity|].
  rewrite IH. destruct Hhd as [|y l Hxy]; simpl; [reflexivity|].
  unfold in_order in Hxy. now rewrite Hxy.
Qed.

Section Consistent.
(** The comparator never asks for both orders of a pair. *)
Hypothesis asym : forall x y,
  positive_result (compareFn x y) = true -> in_order compareFn y x.

Lemma sort_insert_sorted (x : A) (l : list A) :
  Sorted (in_order compareFn) l -> Sorted (in_order compareFn) (sort_insert compareFn x l).
Proof.
  induction 1 as [|y l Hs IH Hhd]; simpl.
  - repeat constructor.
  - destruct (positive_result (compareFn x y)) eqn:E.
    + constructor; [exact IH|].
      destruct Hhd as [|z l Hyz]; simpl.
      * constructor. now apply asym.
      * destruct (positive_result (compareFn x z));
          constructor; [exact Hyz | now apply asym].
    + constructor; [now constructor | now constructor].
Qed.

Lemma Array_sort_is_sorted (l : list A) :
  Sorted (in_order compareFn) (Array_sort compareFn l).
Proof.
  induction l as [|x l IH]; simpl; [constructor|].
  now apply sort_insert_sorted.
Qed.

Lemma Array_sort_idempotent (l : list A) :
  Array_sort compareFn (Array_sort compareFn l) = Array_sort compareFn l.
Proof. apply Array_sort_sorted, Array_sort_is_sorted. Qed.
End Consistent.

(** Adjacent positions of a sorted list are in order. *)
Lemma Sorted_adjacent (l : list A) (i : nat) (a b : A) :
  Sorted (in_order compareFn) l -> l !! i = Some a -> l !! S i = Some b -> in_order compareFn a b.
Proof.
  intros Hs. revert i. induction Hs as [|x l Hs IH Hhd]; intros i Ha Hb.
  - discriminate.
  - destruct i as [|i]; simpl in *.
    + injection Ha as ->. destruct Hhd as [|y l Hxy]; [discriminate|].
      simpl in Hb. now injection Hb as ->.
    + now apply (IH i).
Qed.
End ArraySortFacts.

(** ** The cart normaliser *)

Lemma by_efficiency_in_order (a b : CartItem) :
  in_order by_efficiency a b <-> (efficiency a <= efficiency b)%Q.
Proof.
  unfold in_order, by_efficiency. rewrite positive_result_false.
  split; intros H; lra.
Qed.

Lemma by_efficiency_asym (x y : CartItem) :
  positive_result (by_efficiency x y) = true -> in_order by_efficiency y x.
Proof.
  rewrite positive_result_true, by_efficiency_in_order.
  unfold by_efficiency. intros H. lra.
Qed.

Lemma optimizeCartItems_unfold (l : list CartItem) :
  optimizeCartItems l =
  Array_sort by_efficiency (List.filter (fun item => 0 <? quantity item) l).
Proof. reflexivity. Qed.

Lemma optimizeCartItems_elem_of (it : CartItem) (l : list CartItem) :
  it ∈ optimizeCartItems l <-> it ∈ l /\ 0 < quantity it.
Proof.
  rewrite optimizeCartItems_unfold, Array_sort_elem_of.
  rewrite !list_elem_of_In, filter_In, Z.ltb_lt. tauto.
Qed.

Lemma optimizeCartItems_positive (l : list CartItem) :
  Forall (fun it => 0 < quantity it) (optimizeCartItems l).
Proof.
  apply Forall_forall. intros it Hin.
  now apply optimizeCartItems_elem_of in Hin.
Qed.

Lemma optimizeCartItems_sorted (l : list CartItem) :
  Sorted (in_order by_efficiency) (optimizeCartItems l).
Proof.
  rewrite optimizeCartItems_unfold.
  apply Array_sort_is_sorted, by_efficiency_asym.
Qed.

Lemma filter_all {A : Type} (p : A -> bool) (l : list A) :
  Forall (fun x => p x = true) l -> List.filter p l = l.
Proof.
  induction 1 as [|x l Hx _ IH]; simpl; [reflexivity|].
  now rewrite Hx, IH.
Qed.

(** The filter of the optimiser keeps all of the optimiser's output. *)
Lemma optimizeCartItems_keeps_output (l : list CartItem) :
  List.filter (fun item => 0 <? quantity item) (optimizeCartItems l)
  = optimizeCartItems l.
Proof.
  apply filter_all.
  eapply List.Forall_impl; [|apply optimizeCartItems_positive].
  simpl. intros it Hq. now apply Z.ltb_lt.
Qed.

(** C7. Normalising twice is normalising once:
    [normalize(normalize(L)) == normalize(L)] for every list [L]. *)
Theorem optimizeCartItems_idempotent (L : list CartItem) :
  optimizeCartItems (optimizeCartItems L) = optimizeCartItems L.
Proof.
  rewrite (optimizeCartItems_unfold (optimizeCartItems L)).
  rewrite optimizeCartItems_keeps_output.
  apply Array_sort_sorted.
  apply optimizeCartItems_sorted.
Qed.

(** ** The order of the normaliser, over the arithmetic of the host *)

Section HostOrder.
Variable divide : Q -> Z -> Q.
Variable subtract : Q -> Q -> Q.
Hypothesis host_sign_exact : sign_exact divide subtract.

Lemma by_efficiency_fl_asym (x y : CartItem) :
  positive_result
    (subtract (efficiency_fl divide x) (efficiency_fl divide y)) = true ->
  in_order
    (fun a b => subtract (efficiency_fl divide a) (efficiency_fl divide b))
    y x.
Proof.
  intros H. apply host_sign_exact in H. unfold in_order.
  destruct (positive_result _) eqn:E; [|reflexivity].
  apply host_sign_exact in E. lra.
Qed.

Lemma by_efficiency_fl_in_order (a b : CartItem) :
  in_order
    (fun a b => subtract (efficiency_fl divide a) (efficiency_fl divide b))
    a b ->
  (efficiency_fl divide a <= efficiency_fl divide b)%Q.
Proof.
  unfold in_order. intros H. apply Qnot_lt_le. intros Hlt.
  apply host_sign_exact in Hlt. congruence.
Qed.

Lemma optimizeCartItems_fl_sorted (l : list CartItem) :
  Sorted
    (in_order
       (fun a b => subtract (efficiency_fl divide a) (efficiency_fl divide b)))
    (optimizeCartItems_fl divide subtract l).
Proof.
  unfold optimizeCartItems_fl.
  apply Array_sort_is_sorted. exact by_efficiency_fl_asym.
Qed.

Lemma optimizeCartItems_fl_elem_of (it : CartItem) (l : list CartItem) :
  it ∈ optimizeCartItems_fl divide subtract l <-> it ∈ l /\ 0 < quantity it.
Proof.
  unfold optimizeCartItems_fl. rewrite Array_sort_elem_of.
  rewrite !list_elem_of_In, filter_In, Z.ltb_lt. tauto.
Qed.

Lemma optimizeCartItems_fl_normalised (l : list CartItem) :
  normalised_fl divide (optimizeCartItems_fl divide subtract l).
Proof.
  split.
  - apply Forall_forall. intros it Hit.
    now apply optimizeCartItems_fl_elem_of in Hit.
  - intros i a b Ha Hb. apply by_efficiency_fl_in_order.
    eapply Sorted_adjacent; eauto using optimizeCartItems_fl_sorted.
Qed.
End HostOrder.

(** Exact arithmetic is sign-exact, and over it the functions are the
    ones defined with exact quotients. *)
Lemma exact_sign_exact : sign_exact exact_divide exact_subtract.
Proof.
  intros a b. rewrite positive_result_true. unfold exact_subtract.
  split; intros H; lra.
Qed.

Lemma optimizeCartItems_fl_exact (l : list CartItem) :
  optimizeCartItems_fl exact_divide exact_subtract l = optimizeCartItems l.
Proof. reflexivity. Qed.

Lemma mutations_fl_exact (product_ : Product) (quantity_arg : option Z)
    (now productId quantity_ : Z) (l : list CartItem) :
  addToCart_fl exact_divide exact_subtract product_ quantity_arg now l
  = addToCart product_ quantity_arg now l
  /\ removeFromCart_fl exact_divide exact_subtract productId l
     = removeFromCart productId l
  /\ updateQuantity_fl exact_divide exact_subtract productId quantity_ l
     = updateQuantity productId quantity_ l.
Proof. repeat split. Qed.

(** C6. On a list of lines with positive quantities and non-negative
    prices, every adjacent pair [(a, b)] of the normaliser's output has
    [a.price / a.quantity <= b.price / b.quantity], the quotients being the
    ones the host computes, for every host whose subtraction is sign-exact. *)
Theorem optimizeCartItems_ascending (divide : Q -> Z -> Q)
    (subtract : Q -> Q -> Q) (cartItems : list CartItem) :
  sign_exact divide subtract ->
  Forall (fun it : CartItem => 0 < quantity it /\ (0 <= price it)%Q) cartItems ->
  forall (i : nat) (a b : CartItem),
    optimizeCartItems_fl divide subtract cartItems !! i = Some a ->
    optimizeCartItems_fl divide subtract cartItems !! S i = Some b ->
    (divide (price a) (quantity a) <= divide (price b) (quantity b))%Q.
Proof.
  intros Hsign _ i a b Ha Hb.
  apply (by_efficiency_fl_in_order divide subtract Hsign).
  apply (Sorted_adjacent _ (optimizeCartItems_fl divide subtract cartItems) i);
    [apply (optimizeCartItems_fl_sorted divide subtract Hsign)
    | exact Ha | exact Hb].
Qed.

(** The same without rounding, on a cart of two lines: spinach (3 per
    unit) comes before carrots (10 for 2, so 5 per unit). *)
Lemma optimizeCartItems_ascending_witness :
  Forall (fun it : CartItem => 0 < quantity it /\ (0 <= price it)%Q)
    [carrots; spinach]
  /\ (price spinach / inject_Z (quantity spinach)
      <= price carrots / inject_Z (quantity carrots))%Q.
Proof.
  assert (H : Forall (fun it : CartItem => 0 < quantity it /\ (0 <= price it)%Q)
                [carrots; spinach]).
  { repeat constructor; simpl; try lia; unfold Qle; simpl; lia. }
  split; [exact H|].
  apply (optimizeCartItems_ascending exact_divide exact_subtract
           [carrots; spinach] exact_sign_exact H 0%nat);
    reflexivity.
Defined.

(** ** Cart mutations *)

(** C9. Each of the three mutations leaves a list whose lines all have
    a positive quantity and whose adjacent lines are in non-decreasing order
    of price per unit (the quotient the host computes), whatever list it
    started from, for every host whose subtraction is sign-exact. *)
Theorem mutations_normalise (divide : Q -> Z -> Q) (subtract : Q -> Q -> Q)
    (currentItems : list CartItem)
    (product_ : Product) (quantity_arg : option Z) (now : Z)
    (productId quantity_ : Z) :
  sign_exact divide subtract ->
  normalised_fl divide
    (addToCart_fl divide subtract product_ quantity_arg now currentItems)
  /\ normalised_fl divide
       (removeFromCart_fl divide subtract productId currentItems)
  /\ normalised_fl divide
       (updateQuantity_fl divide subtract productId quantity_ currentItems).
Proof.
  intros Hsign.
  repeat split;
    unfold addToCart_fl, removeFromCart_fl, updateQuantity_fl,
      removeFromCart_fl;
    repeat match goal with |- context [if ?c then _ else _] => destruct c end;
    apply (optimizeCartItems_fl_normalised divide subtract Hsign).
Qed.

(** Without rounding, removing product 1 from carrots and spinach and two
    lines of no quantity: spinach is left. *)
Lemma mutations_normalise_witness :
  normalised_fl exact_divide
    (removeFromCart 1 [carrots; with_quantity carrots 0; spinach]).
Proof.
  apply (mutations_normalise exact_divide exact_subtract
           [carrots; with_quantity carrots 0; spinach] spinach None 0 1 0
           exact_sign_exact).
Defined.

Lemma findIndex_from_none {A : Type} (p : A -> bool) (l : list A) (i : Z) :
  Forall (fun x => p x = false) l -> findIndex_from p l i = -1.
Proof.
  intros H. revert i. induction H as [|x l Hx _ IH]; intros i; simpl.
  - reflexivity.
  - rewrite Hx. apply IH.
Qed.

Lemma strict_eq_false (a : option Z) (n : Z) :
  a <> Some n -> strict_eq a (Some n) = false.
Proof.
  destruct a as [m|]; simpl; [|reflexivity].
  intros H. apply Z.eqb_neq. congruence.
Qed.

(** Adding a product whose id is not numeric, when no line carries the
    identity made from the clock, appends a line under that identity. *)
Lemma addToCart_malformed_fresh (p : Product) (q : option Z) (now : Z)
    (currentItems : list CartItem) :
  Number_id (id p) = None ->
  (forall it : CartItem, it ∈ currentItems -> Number_id (id it) <> Some (- now)) ->
  addToCart p q now currentItems =
  optimizeCartItems
    (currentItems ++ [mkCartItem (with_id p (IdNum (- now))) (default 1 q)]).
Proof.
  intros Hp Hfresh. unfold addToCart. rewrite Hp. unfold findIndex.
  rewrite findIndex_from_none; [reflexivity|].
  apply Forall_forall. intros it Hin. apply strict_eq_false. auto.
Qed.

Lemma optimizeCartItems_snoc_length (l : list CartItem) (x : CartItem) :
  0 < quantity x ->
  length (optimizeCartItems (l ++ [x]))
  = S (length (List.filter (fun item => 0 <? quantity item) l)).
Proof.
  intros Hx. rewrite optimizeCartItems_unfold, Array_sort_length.
  rewrite List.filter_app, length_app. simpl.
  apply Z.ltb_lt in Hx. rewrite Hx. simpl. lia.
Qed.

(** C8, as amended. A product whose id is not numeric is not rejected:
    it is stored under the identity [- now]. Two such products added at
    different clock readings, with positive quantities, to a cart no line of
    which carries either identity, end up as two different lines. *)
Theorem addToCart_malformed_distinct (p1 p2 : Product) (q1 q2 : option Z)
    (t1 t2 : Z) (currentItems : list CartItem) :
  Number_id (id p1) = None ->
  Number_id (id p2) = None ->
  t1 <> t2 ->
  (forall it : CartItem, it ∈ currentItems ->
     Number_id (id it) <> Some (- t1) /\ Number_id (id it) <> Some (- t2)) ->
  0 < default 1 q1 ->
  0 < default 1 q2 ->
  let line1 := mkCartItem (with_id p1 (IdNum (- t1))) (default 1 q1) in
  let line2 := mkCartItem (with_id p2 (IdNum (- t2))) (default 1 q2) in
  let result := addToCart p2 q2 t2 (addToCart p1 q1 t1 currentItems) in
  line1 ∈ result /\ line2 ∈ result /\ line1 <> line2
  /\ length result = (length (optimizeCartItems currentItems) + 2)%nat.
Proof.
  intros Hp1 Hp2 Ht Hfresh Hq1 Hq2 line1 line2 result.
  assert (E1 : addToCart p1 q1 t1 currentItems
               = optimizeCartItems (currentItems ++ [line1])).
  { apply addToCart_malformed_fresh; [exact Hp1|].
    intros it Hin. now apply Hfresh. }
  assert (E2 : result
               = optimizeCartItems (optimizeCartItems (currentItems ++ [line1])
                                    ++ [line2])).
  { subst result. rewrite E1. apply addToCart_malformed_fresh; [exact Hp2|].
    intros it Hin. apply optimizeCartItems_elem_of in Hin as [Hin _].
    apply elem_of_app in Hin as [Hin|Hin].
    - now apply Hfresh.
    - apply list_elem_of_singleton in Hin. subst it. simpl.
      intros [=]. lia. }
  assert (In1 : line1 ∈ optimizeCartItems (currentItems ++ [line1])).
  { apply optimizeCartItems_elem_of. split; [|exact Hq1].
    apply elem_of_app. right. now apply list_elem_of_singleton. }
  rewrite E2. repeat split.
  - apply optimizeCartItems_elem_of. split; [|exact Hq1].
    apply elem_of_app. now left.
  - apply optimizeCartItems_elem_of. split; [|exact Hq2].
    apply elem_of_app. right. now apply list_elem_of_singleton.
  - intros [=]. lia.
  - rewrite optimizeCartItems_snoc_length by exact Hq2.
    rewrite optimizeCartItems_keeps_output.
    rewrite optimizeCartItems_snoc_length by exact Hq1.
    rewrite optimizeCartItems_unfold, Array_sort_length. lia.
Qed.

(** Two malformed products added one millisecond apart to a cart that holds
    carrots: three lines. *)
Lemma addToCart_malformed_distinct_witness :
  let result :=
    addToCart mystery_pear None 1700000000001
      (addToCart mystery_apple None 1700000000000 [carrots]) in
  mkCartItem (with_id mystery_apple (IdNum (- 1700000000000))) 1 ∈ result
  /\ mkCartItem (with_id mystery_pear (IdNum (- 1700000000001))) 1 ∈ result
  /\ length result = 3%nat.
Proof.
  pose proof
    (addToCart_malformed_distinct mystery_apple mystery_pear None None
       1700000000000 1700000000001 [carrots]) as H.
  simpl in H.
  destruct H as (H1 & H2 & _ & H4); try reflexivity; try lia.
  - intros it Hin. apply list_elem_of_singleton in Hin. subst it.
    split; discriminate.
  - split; [exact H1|]. split; [exact H2|]. exact H4.
Defined.

(** C8, as stated, fails: two different products with non-numeric ids,
    added at the same clock reading, become one line of quantity 2. *)
Lemma addToCart_malformed_same_clock_merges :
  mystery_apple <> mystery_pear
  /\ Number_id (id mystery_apple) = None
  /\ Number_id (id mystery_pear) = None
  /\ addToCart mystery_pear None 1700000000000
       (addToCart mystery_apple None 1700000000000 [])
     = [mkCartItem (with_id mystery_apple (IdNum (- 1700000000000))) 2].
Proof.
  repeat split; try reflexivity. discriminate.
Qed.

(** ** The delivery packer: capacity *)

Lemma fits_spec (maxW maxV : Q) (box : Box) (u : CartItem) :
  fits maxW maxV box u = true <->
  (totalWeightKg box + unitWeight u <= maxW)%Q
  /\ (totalVolumeCm3 box + unitVolume u <= maxV)%Q.
Proof.
  unfold fits. rewrite andb_true_iff, !Qle_bool_iff. reflexivity.
Qed.

Section Capacity.
Variables maxW maxV : Q.

Lemma add_to_box_ok (box : Box) (u : CartItem) :
  fits maxW maxV box u = true -> box_ok maxW maxV (add_to_box box u).
Proof. intros H. left. now apply fits_spec in H. Qed.

Lemma first_fit_ok (u : CartItem) (boxes boxes' : list Box) :
  Forall (box_ok maxW maxV) boxes ->
  first_fit maxW maxV u boxes = Some boxes' ->
  Forall (box_ok maxW maxV) boxes'.
Proof.
  intros H. revert boxes'.
  induction H as [|box rest Hbox Hrest IH]; intros boxes' E; simpl in E.
  - discriminate.
  - destruct (fits maxW maxV box u) eqn:Hfit.
    + injection E as <-. constructor; [now apply add_to_box_ok | exact Hrest].
    + destruct (first_fit maxW maxV u rest) as [rest'|]; simpl in E;
        [|discriminate].
      injection E as <-. constructor; [exact Hbox | now apply IH].
Qed.

Lemma place_unit_ok (boxes : list Box) (u : CartItem) :
  Forall (box_ok maxW maxV) boxes ->
  Forall (box_ok maxW maxV) (place_unit maxW maxV boxes u).
Proof.
  intros H. unfold place_unit.
  destruct (first_fit maxW maxV u boxes) as [boxes'|] eqn:E.
  - eapply first_fit_ok; eauto.
  - apply Forall_app. split; [exact H|].
    constructor; [|constructor]. now right.
Qed.

Lemma pack_units_ok (units : list CartItem) (boxes : list Box) :
  Forall (box_ok maxW maxV) boxes ->
  Forall (box_ok maxW maxV) (pack_units maxW maxV units boxes).
Proof.
  revert boxes. induction units as [|u units IH]; intros boxes H; simpl.
  - exact H.
  - apply IH. now apply place_unit_ok.
Qed.
End Capacity.

(** C1. Every box [packForDelivery] returns has a total weight within
    [maxWeightKg] (10 by default) and a total volume within [maxVolumeCm3]
    (40000 by default), unless it holds exactly one unit. *)
Theorem packForDelivery_capacity (cartItems : list CartItem)
    (options : option PackOptions) :
  Forall
    (fun b : Box =>
       ((totalWeightKg b <= default 10 (options ≫= maxWeightKg))%Q
        /\ (totalVolumeCm3 b <= default 40000 (options ≫= maxVolumeCm3))%Q)
       \/ length (items b) = 1%nat)
    (packForDelivery cartItems options).
Proof.
  apply (pack_units_ok (maxWeightKg_of options) (maxVolumeCm3_of options)).
  constructor.
Qed.

(** ** The delivery packer: no unit lost or duplicated *)

Lemma push_units_repeat (n : nat) (i : Z) (it : CartItem) (acc : list CartItem) :
  n = Z.to_nat (quantity it - i) ->
  push_units n i it acc = acc ++ repeat (with_quantity it 1) n.
Proof.
  revert i acc. induction n as [|n IH]; intros i acc Hn; simpl.
  - now rewrite app_nil_r.
  - assert (Hlt : (i <? quantity it) = true) by (apply Z.ltb_lt; lia).
    rewrite Hlt, IH by lia. now rewrite <- app_assoc.
Qed.

Lemma expand_from (cartItems acc : list CartItem) :
  fold_left
    (fun expanded it => push_units (Z.to_nat (quantity it)) 0 it expanded)
    cartItems acc
  = acc ++ expand_spec cartItems.
Proof.
  revert acc. induction cartItems as [|it l IH]; intros acc; simpl.
  - now rewrite app_nil_r.
  - rewrite IH, push_units_repeat by (f_equal; lia).
    now rewrite <- app_assoc.
Qed.

(** The loop of the code computes the expansion of the specification. *)
Lemma expand_correct (cartItems : list CartItem) :
  expand cartItems = expand_spec cartItems.
Proof. unfold expand. now rewrite expand_from. Qed.

Lemma first_fit_units (maxW maxV : Q) (u : CartItem) (boxes boxes' : list Box) :
  first_fit maxW maxV u boxes = Some boxes' ->
  Permutation (packed_units boxes') (u :: packed_units boxes).
Proof.
  revert boxes'. induction boxes as [|box rest IH]; intros boxes' E; simpl in E.
  - discriminate.
  - destruct (fits maxW maxV box u).
    + injection E as <-. unfold packed_units. simpl.
      rewrite <- app_assoc. simpl.
      symmetry. apply Permutation_middle.
    + destruct (first_fit maxW maxV u rest) as [rest'|]; simpl in E;
        [|discriminate].
      injection E as <-. unfold packed_units in *. simpl.
      rewrite (IH rest' eq_refl). symmetry. apply Permutation_middle.
Qed.

Lemma place_unit_units (maxW maxV : Q) (boxes : list Box) (u : CartItem) :
  Permutation (packed_units (place_unit maxW maxV boxes u))
    (u :: packed_units boxes).
Proof.
  unfold place_unit.
  destruct (first_fit maxW maxV u boxes) as [boxes'|] eqn:E.
  - now apply (first_fit_units maxW maxV).
  - unfold packed_units. rewrite map_app, concat_app. simpl.
    symmetry. apply Permutation_cons_append.
Qed.

Lemma pack_units_units (maxW maxV : Q) (units : list CartItem) (boxes : list Box) :
  Permutation (packed_units (pack_units maxW maxV units boxes))
    (units ++ packed_units boxes).
Proof.
  revert boxes. induction units as [|u units IH]; intros boxes; simpl.
  - reflexivity.
  - rewrite IH, place_unit_units. symmetry. apply Permutation_middle.
Qed.

(** C2. The units held by the boxes, taken together, are a permutation of
    the units obtained by expanding every line of quantity [N] into [N]
    unit lines of quantity 1: none lost, none duplicated. *)
Theorem packForDelivery_units (cartItems : list CartItem)
    (options : option PackOptions) :
  Permutation (concat (map items (packForDelivery cartItems options)))
    (expand_spec cartItems).
Proof.
  unfold packForDelivery. fold (packed_units
    (pack_units (maxWeightKg_of options) (maxVolumeCm3_of options)
       (bySizeDesc cartItems) [])).
  rewrite pack_units_units. unfold packed_units. simpl. rewrite app_nil_r.
  unfold bySizeDesc. rewrite Array_sort_perm. now rewrite expand_correct.
Qed.

(** ** The delivery packer: units of no weight and no volume *)

Lemma pack_units_snoc (maxW maxV : Q) (units : list CartItem) (u : CartItem)
    (boxes : list Box) :
  pack_units maxW maxV (units ++ [u]) boxes
  = place_unit maxW maxV (pack_units maxW maxV units boxes) u.
Proof. unfold pack_units. now rewrite fold_left_app. Qed.

(** A unit that adds nothing fits a box exactly when the box is itself
    within the capacities. *)
Lemma fits_zero_unit (maxW maxV : Q) (box : Box) (u : CartItem) :
  (unitWeight u == 0)%Q -> (unitVolume u == 0)%Q ->
  fits maxW maxV box u = true <->
  (totalWeightKg box <= maxW)%Q /\ (totalVolumeCm3 box <= maxV)%Q.
Proof.
  intros Hw Hv. rewrite fits_spec, Hw, Hv, !Qplus_0_r. reflexivity.
Qed.

(** C3, as amended. At any point of a run where boxes exist, a unit whose
    weight and volume are both zero is put into the first box provided the
    totals of that box are within the capacities; how full the box is below
    them does not matter. *)
Theorem zero_unit_joins_first_box (cartItems : list CartItem)
    (options : option PackOptions)
    (pre post : list CartItem) (u : CartItem) (b : Box) (rest : list Box) :
  let maxW := maxWeightKg_of options in
  let maxV := maxVolumeCm3_of options in
  bySizeDesc cartItems = pre ++ u :: post ->
  pack_units maxW maxV pre [] = b :: rest ->
  (unitWeight u == 0)%Q -> (unitVolume u == 0)%Q ->
  (totalWeightKg b <= maxW)%Q -> (totalVolumeCm3 b <= maxV)%Q ->
  exists b', pack_units maxW maxV (pre ++ [u]) [] = b' :: rest
             /\ items b' = items b ++ [u].
Proof.
  intros maxW maxV _ Hpre Hw Hv HbW HbV.
  exists (add_to_box b u). split; [|reflexivity].
  rewrite pack_units_snoc, Hpre. unfold place_unit. simpl.
  assert (Hfit : fits maxW maxV b u = true)
    by (apply fits_zero_unit; auto).
  now rewrite Hfit.
Qed.

(** After the potatoes (3 kg) have opened box 1, the voucher joins it. *)
Lemma zero_unit_joins_first_box_witness :
  exists b',
    pack_units 10 40000 ([potatoes] ++ [voucher]) [] = [b']
    /\ items b' = [potatoes; voucher].
Proof.
  apply (zero_unit_joins_first_box [potatoes; voucher] None
           [potatoes] [] voucher
           (mkBox 1 [potatoes] 3 0) []);
    try reflexivity; unfold Qle; simpl; lia.
Defined.

(** C3, as stated, fails: after the over-weight pumpkin has opened box 1
    (15 kg against a limit of 10), the voucher, which weighs nothing and
    takes no room, does not join it and opens box 2. *)
Lemma zero_unit_skips_overfull_first_box :
  map (fun b => (boxId b, map (fun it : CartItem => name it) (items b),
                 totalWeightKg b))
    (packForDelivery [pumpkin; voucher] None)
  = [(1, ["pumpkin"], 15%Q); (2, ["voucher"], 0%Q)]
  /\ ~ zero_units_join_first_box [pumpkin; voucher] None.
Proof.
  split; [reflexivity|].
  intros H.
  destruct (H [pumpkin] [] voucher (mkBox 1 [pumpkin] 15 0) [])
    as (b' & E & _); try reflexivity.
  vm_compute in E. discriminate E.
Qed.

(** ** The packer over a store: what it reads, what it allocates *)

Lemma push_units_h_spec (n : nat) (i : Z) (it : CartItem)
    (h : list CartItem) (xs : list ref) :
  n = Z.to_nat (quantity it - i) ->
  push_units_h n i it (h, xs)
  = (h ++ repeat (with_quantity it 1) n, xs ++ seq (length h) n).
Proof.
  revert i h xs. induction n as [|n IH]; intros i h xs Hn; simpl.
  - now rewrite !app_nil_r.
  - assert (Hlt : (i <? quantity it) = true) by (apply Z.ltb_lt; lia).
    rewrite Hlt, IH by lia.
    rewrite <- !app_assoc, length_app. simpl.
    now rewrite Nat.add_1_r.
Qed.

Lemma expand_h_from (h e : list CartItem) (cartRefs : list ref) :
  fold_left
    (fun hx r =>
       let it := deref h r in
       push_units_h (Z.to_nat (quantity it)) 0 it hx)
    cartRefs (h ++ e, seq (length h) (length e))
  = (h ++ e ++ expand_spec (map (deref h) cartRefs),
     seq (length h) (length (e ++ expand_spec (map (deref h) cartRefs)))).
Proof.
  revert e. induction cartRefs as [|r l IH]; intros e; simpl.
  - now rewrite !app_nil_r.
  - rewrite push_units_h_spec by (f_equal; lia).
    set (n := Z.to_nat (quantity (deref h r))).
    set (u := with_quantity (deref h r) 1).
    rewrite <- app_assoc, length_app, <- seq_app.
    rewrite <- (repeat_length u n) at 2. rewrite <- length_app.
    rewrite IH. now rewrite <- !app_assoc.
Qed.

(** The expansion allocates the units of the specification, in order,
    right after the objects that were there. *)
Lemma expand_h_spec (h : list CartItem) (cartRefs : list ref) :
  expand_h h cartRefs
  = (h ++ expand_spec (map (deref h) cartRefs),
     seq (length h) (length (expand_spec (map (deref h) cartRefs)))).
Proof.
  pose proof (expand_h_from h [] cartRefs) as H.
  rewrite app_nil_r in H. exact H.
Qed.

Lemma deref_allocated (h e : list CartItem) :
  map (deref (h ++ e)) (seq (length h) (length e)) = e.
Proof.
  revert h. induction e as [|x e IH]; intros h; simpl; [reflexivity|].
  f_equal.
  - unfold deref. apply list_lookup_total_middle. reflexivity.
  - specialize (IH (h ++ [x])).
    rewrite <- app_assoc, length_app in IH. simpl in IH.
    now rewrite Nat.add_1_r in IH.
Qed.

Lemma expand_spec_elem_of (x : CartItem) (l : list CartItem) :
  x ∈ expand_spec l -> exists it, it ∈ l /\ x = with_quantity it 1.
Proof.
  unfold expand_spec. rewrite list_elem_of_In, in_flat_map.
  intros (it & Hit & Hx). exists it. split; [now apply list_elem_of_In|].
  now apply repeat_spec in Hx.
Qed.

Lemma first_fit_h_refs (h : list CartItem) (maxW maxV : Q) (u : ref)
    (boxes boxes' : list RefBox) :
  first_fit_h h maxW maxV u boxes = Some boxes' ->
  Permutation (packed_refs boxes') (u :: packed_refs boxes).
Proof.
  revert boxes'. induction boxes as [|box rest IH]; intros boxes' E; simpl in E.
  - discriminate.
  - destruct (fits_h h maxW maxV box u).
    + injection E as <-. unfold packed_refs. simpl.
      rewrite <- app_assoc. simpl. symmetry. apply Permutation_middle.
    + destruct (first_fit_h h maxW maxV u rest) as [rest'|]; simpl in E;
        [|discriminate].
      injection E as <-. unfold packed_refs in *. simpl.
      rewrite (IH rest' eq_refl). symmetry. apply Permutation_middle.
Qed.

Lemma place_unit_h_refs (h : list CartItem) (maxW maxV : Q)
    (boxes : list RefBox) (u : ref) :
  Permutation (packed_refs (place_unit_h h maxW maxV boxes u))
    (u :: packed_refs boxes).
Proof.
  unfold place_unit_h.
  destruct (first_fit_h h maxW maxV u boxes) as [boxes'|] eqn:E.
  - now apply (first_fit_h_refs h maxW maxV).
  - unfold packed_refs. rewrite map_app, concat_app. simpl.
    symmetry. apply Permutation_cons_append.
Qed.

Lemma pack_refs (h : list CartItem) (maxW maxV : Q) (units : list ref)
    (boxes : list RefBox) :
  Permutation (packed_refs (fold_left (place_unit_h h maxW maxV) units boxes))
    (units ++ packed_refs boxes).
Proof.
  revert boxes. induction units as [|u units IH]; intros boxes; simpl.
  - reflexivity.
  - rewrite IH, place_unit_h_refs. symmetry. apply Permutation_middle.
Qed.

(** *** The boxes of references hold what the pure packer computes *)

Lemma sort_insert_map {A B : Type} (f : A -> B) (c : B -> B -> Q)
    (x : A) (l : list A) :
  map f (sort_insert (fun a b => c (f a) (f b)) x l)
  = sort_insert c (f x) (map f l).
Proof.
  induction l as [|y l IH]; simpl; [reflexivity|].
  destruct (positive_result (c (f x) (f y))); simpl; [now rewrite IH|reflexivity].
Qed.

Lemma Array_sort_map {A B : Type} (f : A -> B) (c : B -> B -> Q) (l : list A) :
  map f (Array_sort (fun a b => c (f a) (f b)) l) = Array_sort c (map f l).
Proof.
  induction l as [|x l IH]; simpl; [reflexivity|].
  now rewrite sort_insert_map, IH.
Qed.

Lemma first_fit_h_contents (h : list CartItem) (maxW maxV : Q) (u : ref)
    (boxes : list RefBox) :
  map (box_contents h) <$> first_fit_h h maxW maxV u boxes
  = first_fit maxW maxV (deref h u) (map (box_contents h) boxes).
Proof.
  induction boxes as [|box rest IH]; simpl; [reflexivity|].
  change (fits maxW maxV (box_contents h box) (deref h u))
    with (fits_h h maxW maxV box u).
  destruct (fits_h h maxW maxV box u); simpl.
  - f_equal. f_equal. unfold box_contents, add_to_box. simpl.
    now rewrite map_app.
  - rewrite <- IH. now destruct (first_fit_h h maxW maxV u rest).
Qed.

Lemma place_unit_h_contents (h : list CartItem) (maxW maxV : Q)
    (boxes : list RefBox) (u : ref) :
  map (box_contents h) (place_unit_h h maxW maxV boxes u)
  = place_unit maxW maxV (map (box_contents h) boxes) (deref h u).
Proof.
  unfold place_unit_h, place_unit. rewrite <- first_fit_h_contents.
  destruct (first_fit_h h maxW maxV u boxes); simpl; [reflexivity|].
  rewrite map_app, length_map. reflexivity.
Qed.

Lemma pack_refs_contents (h : list CartItem) (maxW maxV : Q)
    (units : list ref) (boxes : list RefBox) :
  map (box_contents h) (fold_left (place_unit_h h maxW maxV) units boxes)
  = pack_units maxW maxV (map (deref h) units) (map (box_contents h) boxes).
Proof.
  revert boxes. induction units as [|u units IH]; intros boxes; simpl.
  - reflexivity.
  - now rewrite IH, place_unit_h_contents.
Qed.

(** The call on a state, spelled out. *)
Lemma packForDelivery_h_unfold (st : State) (options : option PackOptions) :
  let units := expand_spec (map (deref (heap st)) (cart st)) in
  let h' := heap st ++ units in
  packForDelivery_h st options
  = ({| heap := h'; cart := cart st |},
     fold_left
       (place_unit_h h' (maxWeightKg_of options) (maxVolumeCm3_of options))
       (Array_sort (fun a b => (metric (deref h' b) - metric (deref h' a))%Q)
          (seq (length (heap st)) (length units)))
       []).
Proof.
  unfold packForDelivery_h. now rewrite expand_h_spec.
Qed.

(** C10. [packForDelivery] only reads the cart. After the call the cart
    array is the same and every object that existed is unchanged, so the
    cart holds the same lines, with the same quantities, in the same order.
    The boxes hold what the pure function computes, and every object in a
    box is a newly allocated copy of quantity 1 of some cart line, never a
    cart line itself. *)
Theorem packForDelivery_read_only (st : State) (options : option PackOptions) :
  well_formed st ->
  let st' := (packForDelivery_h st options).1 in
  let boxes := (packForDelivery_h st options).2 in
  cart st' = cart st
  /\ (forall r : ref, (r < length (heap st))%nat -> heap st' !! r = heap st !! r)
  /\ map (deref (heap st')) (cart st') = map (deref (heap st)) (cart st)
  /\ map (box_contents (heap st')) boxes
     = packForDelivery (map (deref (heap st)) (cart st)) options
  /\ (forall (b : RefBox) (r : ref),
        b ∈ boxes -> r ∈ ritems b ->
        (r ∉ cart st)
        /\ (length (heap st) <= r)%nat
        /\ quantity (deref (heap st') r) = 1
        /\ exists r0 : ref,
             r0 ∈ cart st
             /\ heap st' !! r = Some (with_quantity (deref (heap st) r0) 1)).
Proof.
  intros Hwf st' boxes. subst st' boxes.
  rewrite packForDelivery_h_unfold. simpl.
  set (units := expand_spec (map (deref (heap st)) (cart st))).
  set (h' := heap st ++ units).
  assert (Hold : forall r : ref, (r < length (heap st))%nat ->
                   h' !! r = heap st !! r).
  { intros r Hr. now apply lookup_app_l. }
  split; [reflexivity|]. split; [exact Hold|]. split.
  { apply map_ext_in. intros r Hr. unfold deref.
    rewrite !list_lookup_total_alt, Hold; [reflexivity|].
    unfold well_formed in Hwf. rewrite Forall_forall in Hwf.
    apply Hwf. now apply list_elem_of_In. }
  split.
  { rewrite pack_refs_contents. simpl. unfold packForDelivery, bySizeDesc.
    f_equal.
    rewrite (Array_sort_map (deref h') (fun a b => (metric b - metric a)%Q)).
    f_equal. rewrite expand_correct. apply deref_allocated. }
  intros b r Hb Hr.
  assert (Hin : r ∈ seq (length (heap st)) (length units)).
  { rewrite <- (Array_sort_elem_of
                  (fun a b => (metric (deref h' b) - metric (deref h' a))%Q)).
    rewrite <- (app_nil_r (Array_sort _ _)).
    change [] with (packed_refs []).
    rewrite <- pack_refs. unfold packed_refs.
    apply list_elem_of_In, in_concat. exists (ritems b).
    split; [|now apply list_elem_of_In].
    apply in_map, list_elem_of_In, Hb. }
  apply list_elem_of_In, in_seq in Hin. destruct Hin as [Hge Hlt].
  assert (Hlook : exists x, h' !! r = Some x /\ x ∈ units).
  { destruct (units !! (r - length (heap st))%nat) as [x|] eqn:Ex.
    - exists x. split; [|eapply list_elem_of_lookup_2; eauto].
      unfold h'. rewrite lookup_app_r by lia. exact Ex.
    - apply lookup_ge_None in Ex. lia. }
  destruct Hlook as (x & Hx & Hxin).
  apply expand_spec_elem_of in Hxin as (it & Hit & ->).
  apply list_elem_of_fmap in Hit as (r0 & -> & Hr0).
  repeat split.
  - intros Hc. unfold well_formed in Hwf. rewrite Forall_forall in Hwf.
    specialize (Hwf r Hc). lia.
  - exact Hge.
  - unfold deref. now rewrite (list_lookup_total_correct _ _ _ Hx).
  - exists r0. split; [exact Hr0 | exact Hx].
Qed.

(** On the sample state the three units are allocated at addresses 2, 3
    and 4; the cart still reads as carrots and spinach. *)
Lemma packForDelivery_read_only_witness :
  well_formed sample_state
  /\ cart (packForDelivery_h sample_state None).1 = [0%nat; 1%nat]
  /\ map (deref (heap (packForDelivery_h sample_state None).1)) [0%nat; 1%nat]
     = [carrots; spinach]
  /\ map ritems (packForDelivery_h sample_state None).2 = [[2%nat; 3%nat; 4%nat]].
Proof.
  assert (Hwf : well_formed sample_state).
  { unfold well_formed, sample_state. simpl. repeat constructor. }
  destruct (packForDelivery_read_only sample_state None Hwf)
    as (Hcart & _ & Hlines & _ & _).
  split; [exact Hwf|]. split; [exact Hcart|]. split; [|reflexivity].
  rewrite Hcart in Hlines. exact Hlines.
Defined.

(** ** The recommendation scorer: length of the answer *)

Lemma slice0_prefix {A : Type} (l : list A) (e : Z) : slice0 l e `prefix_of` l.
Proof.
  unfold slice0. eexists. symmetry. apply take_drop.
Qed.

Lemma slice0_length {A : Type} (l : list A) (e : Z) :
  0 <= e -> Z.of_nat (length (slice0 l e)) <= e.
Proof.
  intros He. unfold slice0.
  assert (Hneg : (e <? 0) = false) by (apply Z.ltb_ge; lia).
  rewrite Hneg, length_take. lia.
Qed.

Section ScorerLength.
Variable localeCompare : string -> string -> Q.
Variable cartItems : list CartItem.
Variable allProducts : list Product.
Variable options : option RecOptions.

Lemma localCompute_length (draws : list nat) :
  MIN options <= MAX options -> 0 <= MAX options ->
  Z.of_nat (length (localCompute localeCompare cartItems allProducts options draws))
  <= MAX options.
Proof.
  intros Hmin Hmax. unfold localCompute.
  set (sorted := Array_sort _ _).
  set (e := Z.max (MIN options) (Z.min (MAX options) (Z.of_nat (length sorted)))).
  assert (He : 0 <= e <= MAX options) by lia.
  pose proof (slice0_length sorted e (proj1 He)). lia.
Qed.

Lemma useRecommendations_prefix (remote : option (list ServerRec))
    (draws : list nat) :
  useRecommendations localeCompare cartItems allProducts options remote draws
  `prefix_of` ranked localeCompare cartItems allProducts options remote draws.
Proof.
  unfold useRecommendations, ranked, localCompute.
  destruct remote as [res|]; [|apply slice0_prefix].
  destruct (0 <? length (mapped allProducts res))%nat; apply slice0_prefix.
Qed.
End ScorerLength.

(** C5, as amended. When [minRecommendations <= maxRecommendations] (and
    [maxRecommendations] is not negative) the answer has at most
    [maxRecommendations] elements. In every case it is a prefix of the ranked
    list: nothing is added to reach a minimum. *)
Theorem useRecommendations_at_most_max
    (localeCompare : string -> string -> Q)
    (cartItems : list CartItem) (allProducts : list Product)
    (options : option RecOptions) (remote : option (list ServerRec))
    (draws : list nat) :
  default 5 (options ≫= minRecommendations)
    <= default 10 (options ≫= maxRecommendations) ->
  0 <= default 10 (options ≫= maxRecommendations) ->
  let result :=
    useRecommendations localeCompare cartItems allProducts options remote draws in
  Z.of_nat (length result) <= default 10 (options ≫= maxRecommendations)
  /\ result `prefix_of`
       ranked localeCompare cartItems allProducts options remote draws.
Proof.
  intros Hmin Hmax result. split; [|apply useRecommendations_prefix].
  subst result. unfold useRecommendations.
  destruct remote as [res|]; [|now apply localCompute_length].
  destruct (0 <? length (mapped allProducts res))%nat.
  - now apply slice0_length.
  - now apply localCompute_length.
Qed.

(** With the default bounds 5 and 10. *)
Lemma useRecommendations_at_most_max_witness :
  Z.of_nat
    (length (useRecommendations codeCompare cart_with_2 catalogue None None []))
  <= 10.
Proof.
  apply (useRecommendations_at_most_max codeCompare cart_with_2 catalogue
           None None []); simpl; lia.
Defined.

(** C5, as stated, fails: with [minRecommendations = 2] and
    [maxRecommendations = 1] the answer has two elements. *)
Lemma useRecommendations_exceeds_max :
  let options := Some (mkRecOptions None (Some 2) (Some 1) None) in
  let result :=
    useRecommendations codeCompare cart_with_2 catalogue options None [] in
  MAX options = 1
  /\ map (fun r => (id (product r), reason r)) result
     = [(IdNum 1, "bought together"); (IdNum 3, "bought together")]
  /\ ~ (Z.of_nat (length result) <= MAX options).
Proof.
  split; [reflexivity|]. split; [vm_compute; reflexivity|].
  vm_compute. intros H. apply H. reflexivity.
Qed.

(** ** The recommendation scorer: exclusion of cart and purchased products *)

Lemma fold_left_invariant {A B : Type} (P : A -> Prop) (f : A -> B -> A)
    (l : list B) (a : A) :
  P a -> (forall a x, P a -> P (f a x)) -> P (fold_left f l a).
Proof.
  intros Ha Hf. revert a Ha. induction l as [|x l IH]; intros a Ha; simpl; auto.
Qed.

Lemma productById_key (allProducts : list Product) (k : option Z) (p : Product) :
  productById allProducts !! k = Some p -> Number_id (id p) = k.
Proof.
  unfold productById.
  apply (fold_left_invariant
           (fun m : gmap (option Z) Product =>
              m !! k = Some p -> Number_id (id p) = k)).
  - rewrite lookup_empty. discriminate.
  - intros m q IH. rewrite lookup_insert. case_decide as Hk.
    + intros [= ->]. exact Hk.
    + exact IH.
Qed.

Section ScorerExclusion.
Variable localeCompare : string -> string -> Q.
Variable cartItems : list CartItem.
Variable allProducts : list Product.
Variable options : option RecOptions.


Lemma push_clean (pid : option Z) (reason_ : string) (score_ : Q) (acc : Acc) :
  clean cartItems options acc ->
  clean cartItems options
    (push cartItems allProducts options pid reason_ score_ acc).
Proof.
  intros Hacc. unfold push.
  destruct (bool_decide (pid ∈ cartIds cartItems)) eqn:Hcart; simpl; [exact Hacc|].
  destruct (bool_decide (pid ∈ seen acc)); simpl; [exact Hacc|].
  destruct (bool_decide (pid ∈ purchasedIdSet options)) eqn:Hbought;
    simpl; [exact Hacc|].
  destruct (productById allProducts !! pid) as [prod|] eqn:Hprod; [|exact Hacc].
  unfold clean. simpl. apply Forall_app. split; [exact Hacc|].
  constructor; [|constructor].
  apply productById_key in Hprod.
  apply bool_decide_eq_false in Hcart, Hbought.
  unfold allowed. simpl. rewrite Hprod. split.
  - intros i Hi E. apply Hcart. unfold cartIds.
    apply elem_of_list_to_set, list_elem_of_fmap. now exists i.
  - intros n Hn E. apply Hbought. unfold purchasedIdSet.
    apply elem_of_list_to_set, list_elem_of_fmap. now exists n.
Qed.

Lemma bought_together_clean (acc : Acc) :
  clean cartItems options acc ->
  clean cartItems options
    (bought_together cartItems allProducts options acc).
Proof.
  intros Hacc. unfold bought_together.
  apply fold_left_invariant; [exact Hacc|].
  intros a [i count] Ha. now apply push_clean.
Qed.

Lemma browsing_history_clean (acc : Acc) :
  clean cartItems options acc ->
  clean cartItems options
    (browsing_history cartItems allProducts options acc).
Proof.
  intros Hacc. unfold browsing_history.
  destruct (0 <? length (browsing options))%nat; [|exact Hacc].
  destruct (0 <? length (browsed_tags allProducts options))%nat; [|exact Hacc].
  apply fold_left_invariant; [exact Hacc|].
  intros a p Ha. simpl.
  repeat match goal with
         | |- context [if ?c then _ else _] => destruct c
         end; auto using push_clean.
Qed.

Lemma same_category_clean (ps : list Product) (acc : Acc) :
  clean cartItems options acc ->
  clean cartItems options
    (same_category cartItems allProducts options ps acc).
Proof.
  revert acc. induction ps as [|p ps IH]; intros acc Hacc; simpl; [exact Hacc|].
  destruct (_ || _); [now apply IH|].
  assert (Hacc' : clean cartItems options
            (if bool_decide (category p ∈ cartCategories cartItems)
             then push cartItems allProducts options (Number_id (id p))
                    "same category" 1%Q acc
             else acc)).
  { destruct (bool_decide _); [now apply push_clean | exact Hacc]. }
  destruct (MAX options <=? _); [exact Hacc' | now apply IH].
Qed.

Lemma same_tag_clean (tagsArr : list string) (draws : list nat) (acc : Acc) :
  clean cartItems options acc ->
  clean cartItems options (same_tag cartItems allProducts options tagsArr draws acc).
Proof.
  revert draws acc.
  induction tagsArr as [|tag tagsArr IH]; intros draws acc Hacc; simpl;
    [exact Hacc|].
  destruct (shuffle _ draws) as [shuffled draws'].
  match goal with
  | |- context [fold_left ?f ?l acc] =>
      assert (Hacc' : clean cartItems options (fold_left f l acc))
  end.
  { apply fold_left_invariant; [exact Hacc|].
    intros a p Ha. now apply push_clean. }
  destruct (MAX options <=? _); [exact Hacc' | now apply IH].
Qed.

Lemma collect_allowed (draws : list nat) :
  Forall (allowed cartItems options)
    (collect cartItems allProducts options draws).
Proof.
  unfold collect.
  assert (H0 : clean cartItems options {| recs := []; seen := ∅ |}) by constructor.
  destruct (0 <? length cartItems)%nat.
  - unfold nonempty_cart.
    assert (H1 : clean cartItems options (browsing_history cartItems allProducts options
                          (bought_together cartItems allProducts options
                             {| recs := []; seen := ∅ |})))
      by now apply browsing_history_clean, bought_together_clean.
    destruct (_ <? MIN options); [now apply same_category_clean | exact H1].
  - now apply same_tag_clean.
Qed.

(** The local computation never recommends a product of the cart or a
    purchased one. *)
Lemma localCompute_allowed (draws : list nat) :
  Forall (allowed cartItems options)
    (localCompute localeCompare cartItems allProducts options draws).
Proof.
  unfold localCompute.
  set (sorted := Array_sort _ _).
  destruct (slice0_prefix sorted
              (Z.max (MIN options)
                 (Z.min (MAX options) (Z.of_nat (length sorted)))))
    as [rest Hrest].
  assert (Hs : Forall (allowed cartItems options) sorted).
  { unfold sorted. rewrite Array_sort_perm. apply collect_allowed. }
  rewrite Hrest in Hs. now apply Forall_app in Hs as [Hs _].
Qed.
End ScorerExclusion.

Lemma hook_returns_next (localeCompare : string -> string -> Q)
    (state : list Recommendation) (renders : list Render) (k : nat)
    (prev : Render) (returned : list Recommendation) :
  renders !! k = Some prev ->
  hook_returns localeCompare state renders !! S k = Some returned ->
  returned = effect_stores localeCompare prev.
Proof.
  revert state k.
  induction renders as [|r rest IH]; intros state k Hprev Hret;
    [discriminate|].
  destruct k as [|k]; simpl in *.
  - injection Hprev as ->. destruct rest as [|r' rest]; [discriminate|].
    simpl in Hret. now injection Hret as <-.
  - now apply (IH (effect_stores localeCompare r) k).
Qed.

(** C4, as amended. At a render whose cart and options are those of the
    render before it, that is, once the effect has run for them, no product
    the hook returns has the id of a cart line or an id of [purchasedIds]. *)
Theorem hook_returns_caught_up (localeCompare : string -> string -> Q)
    (state : list Recommendation) (renders : list Render) (k : nat)
    (prev r : Render) (returned : list Recommendation) :
  renders !! k = Some prev ->
  renders !! S k = Some r ->
  render_cartItems r = render_cartItems prev ->
  render_options r = render_options prev ->
  hook_returns localeCompare state renders !! S k = Some returned ->
  Forall
    (fun rec : Recommendation =>
       (forall i : CartItem, i ∈ render_cartItems r ->
          Number_id (id i) <> Number_id (id (product rec)))
       /\ (forall n : Z, n ∈ default [] (render_options r ≫= purchasedIds) ->
            Some n <> Number_id (id (product rec))))
    returned.
Proof.
  intros Hprev _ Hcart Hopts Hret.
  rewrite (hook_returns_next _ _ _ _ _ _ Hprev Hret), Hcart, Hopts.
  unfold effect_stores. simpl.
  apply (localCompute_allowed localeCompare (render_cartItems prev)
           (render_allProducts prev) (render_options prev) (render_draws prev)).
Qed.

(** Two renders of the same page: at the second, neither product 2 (in
    the cart) nor product 5 (purchased) is returned. *)
Lemma hook_returns_caught_up_witness :
  Forall
    (fun rec : Recommendation =>
       Number_id (id (product rec)) <> Some 2
       /\ Number_id (id (product rec)) <> Some 5)
    (effect_stores codeCompare render_before).
Proof.
  eapply List.Forall_impl;
    [|apply (hook_returns_caught_up codeCompare []
               [render_before; render_before] 0 render_before render_before
               (effect_stores codeCompare render_before));
      reflexivity].
  intros rec [Hcart Hbought]. split.
  - intros E. apply (Hcart (mkCartItem
              (sample_product (IdNum 2) "produce" "vegetables" 1%Q None None None)
              1)); [apply list_elem_of_singleton; reflexivity | now rewrite E].
  - intros E. apply (Hbought 5); [apply list_elem_of_singleton; reflexivity|].
    now rewrite E.
Defined.

(** C4, as stated, fails: product 1 is recommended while the cart holds
    product 2; once it has been added to the cart, the next render still
    returns the list stored for the cart before, with product 1 in it. *)
Lemma hook_returns_stale_after_add :
  map (fun rec => id (product rec))
    (default [] (hook_returns codeCompare [] [render_before; render_after] !! 1%nat))
  = [IdNum 1; IdNum 3; IdNum 4; IdNum 6]
  /\ Some 1 ∈ cartIds (render_cartItems render_after)
  /\ ~ never_returns_excluded codeCompare [render_before; render_after].
Proof.
  split; [vm_compute; reflexivity|].
  split; [apply (bool_decide_unpack _); vm_compute; exact I|].
  intros H.
  specialize (H 1%nat render_after (effect_stores codeCompare render_before)
                eq_refl eq_refl).
  assert (Hin : mkRecommendation
                  (sample_product (IdNum 1) "produce" "vegetables" 1%Q
                     None None None)
                  "bought together" (inject_Z 3)
                ∈ effect_stores codeCompare render_before).
  { apply list_elem_of_In. vm_compute. left. reflexivity. }
  rewrite Forall_forall in H. destruct (H _ Hin) as [Hcart _].
  apply (Hcart (mkCartItem
                  (sample_product (IdNum 1) "produce" "vegetables" 1%Q
                     None None None) 1)).
  - apply list_elem_of_In. vm_compute. right. left. reflexivity.
  - reflexivity.
Qed.

(** * Further properties of the cart provider *)

(** ** The number of units *)

Lemma getCartCount_from (l : list CartItem) (a : Z) :
  fold_left (fun count (item : CartItem) => count + quantity item) l a
  = a + getCartCount l.
Proof.
  unfold getCartCount. revert a.
  induction l as [|x l IH]; intros a; simpl; [lia|].
  rewrite (IH (a + quantity x)), (IH (0 + quantity x)). lia.
Qed.

Lemma getCartCount_cons (x : CartItem) (l : list CartItem) :
  getCartCount (x :: l) = quantity x + getCartCount l.
Proof.
  unfold getCartCount at 1. simpl. rewrite getCartCount_from. lia.
Qed.



Lemma optimizeCartItems_perm_positive (l : list CartItem) :
  Forall (fun it : CartItem => 0 < quantity it) l ->
  Permutation (optimizeCartItems l) l.
Proof.
  intros H. rewrite optimizeCartItems_unfold, Array_sort_perm.
  rewrite filter_all; [reflexivity|].
  eapply List.Forall_impl; [|exact H].
  simpl. intros it Hq. now apply Z.ltb_lt.
Qed.



(** ** What [addToCart] does to the lines *)

Lemma strict_eq_true (a : option Z) (n : Z) :
  strict_eq a (Some n) = true <-> a = Some n.
Proof.
  destruct a as [m|]; simpl; [|split; discriminate].
  rewrite Z.eqb_eq. split; congruence.
Qed.

Lemma findIndex_from_found {A : Type} (p : A -> bool) (l : list A) (s : Z) :
  0 <= s ->
  findIndex_from p l s <> -1 ->
  exists (l1 : list A) (x : A) (l2 : list A),
    l = l1 ++ x :: l2
    /\ Forall (fun y => p y = false) l1
    /\ p x = true
    /\ findIndex_from p l s = s + Z.of_nat (length l1).
Proof.
  revert s. induction l as [|y l IH]; intros s Hs Hk; simpl in *.
  - congruence.
  - destruct (p y) eqn:Hy.
    + exists [], y, l. simpl. repeat split; auto. lia.
    + destruct (IH (s + 1)) as (l1 & x & l2 & -> & Hl1 & Hx & E);
        [lia | exact Hk |].
      exists (y :: l1), x, l2. simpl. repeat split; auto.
      rewrite E. lia.
Qed.

Lemma findIndex_from_none_inv {A : Type} (p : A -> bool) (l : list A) (s : Z) :
  0 <= s -> findIndex_from p l s = -1 -> Forall (fun y => p y = false) l.
Proof.
  revert s. induction l as [|y l IH]; intros s Hs E; simpl in *.
  - constructor.
  - destruct (p y) eqn:Hy; [lia|].
    constructor; [exact Hy|]. apply (IH (s + 1)); [lia | exact E].
Qed.

(** [l.map((it, i) => i === k ? upd(it) : it)] changes the element at
    index [k] and nothing else. *)
Lemma imap_update_at {A : Type} (upd : A -> A) (l1 : list A) (x : A)
    (l2 : list A) :
  imap (fun i it => if Z.of_nat i =? Z.of_nat (length l1) then upd it else it)
    (l1 ++ x :: l2)
  = l1 ++ upd x :: l2.
Proof.
  rewrite imap_app, imap_cons. f_equal; [|f_equal].
  - rewrite <- (list_fmap_id l1) at 2. rewrite <- imap_const.
    apply imap_ext. intros i y Hi. apply lookup_lt_Some in Hi.
    simpl. destruct (Z.eqb_spec (Z.of_nat i) (Z.of_nat (length l1))); [lia|].
    reflexivity.
  - rewrite Nat.add_0_r, Z.eqb_refl. reflexivity.
  - rewrite <- (list_fmap_id l2) at 2. rewrite <- imap_const.
    apply imap_ext. intros i y _. simpl.
    destruct (Z.eqb_spec (Z.of_nat (length l1 + S i)) (Z.of_nat (length l1)));
      [lia|]. reflexivity.
Qed.

(** The two ways [addToCart] can go: no line carries the normalised id and
    a line is appended, or the first line that carries it has its quantity
    raised. *)
Lemma addToCart_cases (product_ : Product) (quantity_arg : option Z) (now : Z)
    (currentItems : list CartItem) :
  let n := normalizedId_of product_ now in
  let q := default 1 quantity_arg in
  (Forall (fun it : CartItem => Number_id (id it) <> Some n) currentItems
   /\ addToCart product_ quantity_arg now currentItems
      = optimizeCartItems
          (currentItems ++ [mkCartItem (with_id product_ (IdNum n)) q]))
  \/ (exists (l1 : list CartItem) (x : CartItem) (l2 : list CartItem),
        currentItems = l1 ++ x :: l2
        /\ Forall (fun it : CartItem => Number_id (id it) <> Some n) l1
        /\ Number_id (id x) = Some n
        /\ addToCart product_ quantity_arg now currentItems
           = optimizeCartItems (l1 ++ with_quantity x (quantity x + q) :: l2)).
Proof.
  intros n q. unfold addToCart.
  change (match Number_id (id product_) with
          | Some n0 => n0
          | None => - now
          end) with n.
  fold q.
  set (p := fun it : CartItem => strict_eq (Number_id (id it)) (Some n)).
  assert (Hfalse : forall l : list CartItem,
             Forall (fun y => p y = false) l ->
             Forall (fun it : CartItem => Number_id (id it) <> Some n) l).
  { intros l. apply List.Forall_impl. intros it Hit E.
    apply strict_eq_true in E. unfold p in Hit. congruence. }
  destruct (Z.eqb_spec (findIndex p currentItems) (-1)) as [E|E]; simpl.
  - left. split; [|reflexivity].
    apply Hfalse, (findIndex_from_none_inv p currentItems 0); [lia | exact E].
  - right. unfold findIndex in *.
    destruct (findIndex_from_found p currentItems 0)
      as (l1 & x & l2 & -> & Hl1 & Hx & Ek); [lia | exact E |].
    exists l1, x, l2. split; [reflexivity|]. split; [now apply Hfalse|].
    split; [now apply strict_eq_true|].
    rewrite Ek, Z.add_0_l.
    now rewrite (imap_update_at (fun it => with_quantity it (quantity it + q))).
Qed.


Lemma length_optimize_positive (l : list CartItem) :
  Forall (fun it : CartItem => 0 < quantity it) l ->
  length (optimizeCartItems l) = length l.
Proof.
  intros H. now apply Permutation_length, optimizeCartItems_perm_positive.
Qed.



(** X3. On a cart whose quantities are all positive, adding [q > 0] units
    never creates a second line for an id that is present: the number of
    lines stays the same when a line carries the normalised id, and grows
    by one when none does. *)
Theorem addToCart_lines (product_ : Product) (quantity_arg : option Z)
    (now : Z) (currentItems : list CartItem) :
  Forall (fun it : CartItem => 0 < quantity it) currentItems ->
  0 < default 1 quantity_arg ->
  let n := normalizedId_of product_ now in
  length (addToCart product_ quantity_arg now currentItems)
  = if bool_decide (Some n ∈ map (fun it : CartItem => Number_id (id it))
                                 currentItems)
    then length currentItems
    else S (length currentItems).
Proof.
  intros Hpos Hq n. subst n.
  destruct (addToCart_cases product_ quantity_arg now currentItems)
    as [[Hno ->]|(l1 & x & l2 & -> & _ & Hx & ->)].
  - rewrite bool_decide_eq_false_2.
    + rewrite length_optimize_positive.
      * rewrite length_app. simpl. lia.
      * apply Forall_app. split; [exact Hpos | now repeat constructor].
    + intros Hin. apply list_elem_of_fmap in Hin as (it & E & Hit).
      rewrite Forall_forall in Hno. now apply (Hno it Hit).
  - rewrite bool_decide_eq_true_2.
    + apply Forall_app in Hpos as [H1 H2].
      apply Forall_cons in H2 as [Hq' H2].
      rewrite length_optimize_positive.
      * now rewrite !length_app.
      * apply Forall_app. split; [exact H1|].
        constructor; [simpl; lia | exact H2].
    + apply list_elem_of_fmap. exists x. split; [now rewrite Hx|].
      apply elem_of_app. right. apply list_elem_of_here.
Qed.

(** Spinach is in the cart (two lines before and after); product 7 is not
    (three lines after). *)
Lemma addToCart_lines_witness :
  length (addToCart spinach None 0 [carrots; spinach]) = 2%nat
  /\ length (addToCart product7 None 0 [carrots; spinach]) = 3%nat.
Proof.
  assert (Hpos : Forall (fun it : CartItem => 0 < quantity it)
                   [carrots; spinach]) by (repeat constructor).
  split.
  - rewrite (addToCart_lines spinach None 0 [carrots; spinach] Hpos);
      reflexivity.
  - rewrite (addToCart_lines product7 None 0 [carrots; spinach] Hpos);
      reflexivity.
Defined.

(** ** One line per numeric id *)

Lemma numeric_ids_filter (p : CartItem -> bool) (l : list CartItem) :
  numeric_ids (List.filter p l) `sublist_of` numeric_ids l.
Proof.
  unfold numeric_ids. induction l as [|x l IH]; simpl; [constructor|].
  destruct (p x); simpl.
  - destruct (Number_id (id x)); simpl; [now constructor | exact IH].
  - destruct (Number_id (id x)); simpl; [now constructor | exact IH].
Qed.

Lemma numeric_ids_optimize (l : list CartItem) :
  NoDup (numeric_ids l) -> NoDup (numeric_ids (optimizeCartItems l)).
Proof.
  intros H. rewrite optimizeCartItems_unfold.
  unfold numeric_ids at 1. rewrite Array_sort_perm.
  eapply sublist_NoDup; [exact H | apply numeric_ids_filter].
Qed.

Lemma numeric_ids_app (l1 l2 : list CartItem) :
  numeric_ids (l1 ++ l2) = numeric_ids l1 ++ numeric_ids l2.
Proof. apply omap_app. Qed.

Lemma numeric_ids_cons (x : CartItem) (l : list CartItem) :
  numeric_ids (x :: l)
  = match Number_id (id x) with
    | Some n => n :: numeric_ids l
    | None => numeric_ids l
    end.
Proof. reflexivity. Qed.

Lemma numeric_ids_map_same_id (g : CartItem -> CartItem) (l : list CartItem) :
  (forall it, id (g it) = id it) ->
  numeric_ids (map g l) = numeric_ids l.
Proof.
  intros Hg. induction l as [|x l IH]; [reflexivity|].
  cbn [map]. now rewrite !numeric_ids_cons, Hg, IH.
Qed.

(** X4. If no two lines of the cart carry the same numeric id, the same
    holds after [addToCart], after [removeFromCart] and after
    [updateQuantity]. *)
Theorem mutations_keep_ids_distinct (currentItems : list CartItem)
    (product_ : Product) (quantity_arg : option Z) (now : Z)
    (productId quantity_ : Z) :
  NoDup (numeric_ids currentItems) ->
  NoDup (numeric_ids (addToCart product_ quantity_arg now currentItems))
  /\ NoDup (numeric_ids (removeFromCart productId currentItems))
  /\ NoDup (numeric_ids (updateQuantity productId quantity_ currentItems)).
Proof.
  intros Hnd.
  assert (Hrm : NoDup (numeric_ids (removeFromCart productId currentItems))).
  { unfold removeFromCart. apply numeric_ids_optimize.
    eapply sublist_NoDup; [exact Hnd | apply numeric_ids_filter]. }
  split; [|split; [exact Hrm|]].
  - destruct (addToCart_cases product_ quantity_arg now currentItems)
      as [[Hno ->]|(l1 & x & l2 & -> & _ & Hx & ->)];
      apply numeric_ids_optimize.
    + rewrite numeric_ids_app. simpl.
      apply NoDup_app. split; [exact Hnd|]. split; [|apply NoDup_singleton].
      intros n Hn Hn'. apply list_elem_of_singleton in Hn'. subst n.
      apply list_elem_of_omap in Hn as (it & Hit & E).
      rewrite Forall_forall in Hno. now apply (Hno it Hit).
    + rewrite numeric_ids_app in *. unfold numeric_ids in *. simpl in *.
      exact Hnd.
  - unfold updateQuantity. destruct (quantity_ <=? 0); [exact Hrm|].
    apply numeric_ids_optimize. rewrite numeric_ids_map_same_id; [exact Hnd|].
    intros it. now destruct (id_is it productId).
Qed.

(** On carrots (id 1) and spinach (id 2). *)
Lemma mutations_keep_ids_distinct_witness :
  NoDup (numeric_ids (addToCart spinach None 0 [carrots; spinach])).
Proof.
  apply (mutations_keep_ids_distinct [carrots; spinach] spinach None 0 0 0).
  unfold numeric_ids. simpl.
  apply NoDup_cons. split.
  - intros H. apply list_elem_of_singleton in H. discriminate H.
  - apply NoDup_singleton.
Defined.

(** ** [removeFromCart] and [updateQuantity], line by line *)

(** X5. The lines left by [removeFromCart] are exactly the lines of the
    cart that have a positive quantity and another id: the line asked for is
    gone, and no other line is lost. *)
Theorem removeFromCart_lines (productId : Z) (currentItems : list CartItem)
    (it : CartItem) :
  it ∈ removeFromCart productId currentItems
  <-> it ∈ currentItems /\ 0 < quantity it /\ id_is it productId = false.
Proof.
  unfold removeFromCart. rewrite optimizeCartItems_elem_of.
  rewrite !list_elem_of_In, filter_In, negb_true_iff. tauto.
Qed.

(** X6. For [q > 0], the lines left by [updateQuantity] are the lines of
    another id that have a positive quantity, unchanged, and every line of
    the given id with its quantity replaced by [q] (whatever it was). *)
Theorem updateQuantity_lines (productId q : Z) (currentItems : list CartItem)
    (it : CartItem) :
  0 < q ->
  it ∈ updateQuantity productId q currentItems
  <-> (it ∈ currentItems /\ 0 < quantity it /\ id_is it productId = false)
      \/ (exists old : CartItem,
            old ∈ currentItems /\ id_is old productId = true
            /\ it = with_quantity old q).
Proof.
  intros Hq. unfold updateQuantity.
  assert (Hle : (q <=? 0) = false) by (apply Z.leb_gt; exact Hq).
  rewrite Hle, optimizeCartItems_elem_of, list_elem_of_fmap. split.
  - intros [(old & -> & Hold) Hpos].
    destruct (id_is old productId) eqn:E.
    + right. now exists old.
    + left. auto.
  - intros [(Hin & Hpos & E)|(old & Hold & E & ->)].
    + split; [|exact Hpos]. exists it. now rewrite E.
    + split; [|exact Hq]. exists old. now rewrite E.
Qed.

(** Setting spinach (id 2) to 4 units. *)
Lemma updateQuantity_lines_witness :
  with_quantity spinach 4 ∈ updateQuantity 2 4 [carrots; spinach].
Proof.
  apply (updateQuantity_lines 2 4 [carrots; spinach]); [reflexivity|].
  right. exists spinach. split; [|split; reflexivity].
  apply list_elem_of_further, list_elem_of_here.
Defined.

(** ** [createItemsHashMap] *)

(** X7. Looking an id up in the hash map gives the last line of the cart
    with that id (a later line replaces an earlier one), and nothing when no
    line has it. *)
Theorem createItemsHashMap_lookup (cartItems : list CartItem) (k : option Z) :
  createItemsHashMap cartItems !! k
  = last (List.filter
            (fun it : CartItem => bool_decide (Number_id (id it) = k))
            cartItems).
Proof.
  unfold createItemsHashMap.
  induction cartItems as [|x l IH] using rev_ind; [reflexivity|].
  rewrite fold_left_app, List.filter_app. simpl.
  rewrite lookup_insert. case_decide as Hk.
  - rewrite bool_decide_eq_true_2 by exact Hk. now rewrite last_snoc.
  - rewrite bool_decide_eq_false_2 by exact Hk. now rewrite app_nil_r.
Qed.

(** * Further properties of the delivery packer *)

(** ** Box numbers, running totals, empty boxes *)

Lemma first_fit_boxIds (maxW maxV : Q) (u : CartItem) (boxes boxes' : list Box) :
  first_fit maxW maxV u boxes = Some boxes' ->
  map boxId boxes' = map boxId boxes.
Proof.
  revert boxes'. induction boxes as [|box rest IH]; intros boxes' E; simpl in E.
  - discriminate.
  - destruct (fits maxW maxV box u).
    + now injection E as <-.
    + destruct (first_fit maxW maxV u rest) as [rest'|]; simpl in E;
        [|discriminate].
      injection E as <-. simpl. now rewrite (IH rest' eq_refl).
Qed.

Lemma place_unit_boxIds (maxW maxV : Q) (boxes : list Box) (u : CartItem) :
  map boxId boxes = map (fun i => Z.of_nat (S i)) (seq 0 (length boxes)) ->
  map boxId (place_unit maxW maxV boxes u)
  = map (fun i => Z.of_nat (S i))
      (seq 0 (length (place_unit maxW maxV boxes u))).
Proof.
  intros H. unfold place_unit.
  destruct (first_fit maxW maxV u boxes) as [boxes'|] eqn:E.
  - rewrite (first_fit_boxIds _ _ _ _ _ E), H.
    pose proof (f_equal (@length Z) (first_fit_boxIds _ _ _ _ _ E)) as Hl.
    rewrite !length_map in Hl. now rewrite Hl.
  - rewrite map_app, length_app, seq_app, map_app, H. simpl.
    do 3 f_equal. lia.
Qed.

(** X8. The boxes are numbered 1, 2, 3, ... in the order of the list. *)
Theorem packForDelivery_boxIds (cartItems : list CartItem)
    (options : option PackOptions) :
  map boxId (packForDelivery cartItems options)
  = map (fun i => Z.of_nat (S i))
      (seq 0 (length (packForDelivery cartItems options))).
Proof.
  unfold packForDelivery, pack_units.
  apply (fold_left_invariant
           (fun boxes : list Box =>
              map boxId boxes
              = map (fun i => Z.of_nat (S i)) (seq 0 (length boxes)))).
  - reflexivity.
  - intros boxes u H. now apply place_unit_boxIds.
Qed.

Lemma sum_weight_snoc (l : list CartItem) (u : CartItem) :
  (sum_weight (l ++ [u]) == sum_weight l + unitWeight u)%Q.
Proof.
  unfold sum_weight. induction l as [|x l IH]; simpl; [ring|].
  rewrite IH. ring.
Qed.

Lemma sum_volume_snoc (l : list CartItem) (u : CartItem) :
  (sum_volume (l ++ [u]) == sum_volume l + unitVolume u)%Q.
Proof.
  unfold sum_volume. induction l as [|x l IH]; simpl; [ring|].
  rewrite IH. ring.
Qed.

Lemma add_to_box_sound (box : Box) (u : CartItem) :
  box_sound box -> box_sound (add_to_box box u).
Proof.
  intros (Hw & Hv & _). unfold box_sound, add_to_box. simpl.
  rewrite sum_weight_snoc, sum_volume_snoc, Hw, Hv.
  repeat split; try reflexivity.
  now destruct (items box).
Qed.

Lemma first_fit_sound (maxW maxV : Q) (u : CartItem) (boxes boxes' : list Box) :
  Forall box_sound boxes ->
  first_fit maxW maxV u boxes = Some boxes' ->
  Forall box_sound boxes'.
Proof.
  intros H. revert boxes'.
  induction H as [|box rest Hbox Hrest IH]; intros boxes' E; simpl in E.
  - discriminate.
  - destruct (fits maxW maxV box u).
    + injection E as <-. constructor; [now apply add_to_box_sound | exact Hrest].
    + destruct (first_fit maxW maxV u rest) as [rest'|]; simpl in E;
        [|discriminate].
      injection E as <-. constructor; [exact Hbox | now apply IH].
Qed.

Lemma place_unit_sound (maxW maxV : Q) (boxes : list Box) (u : CartItem) :
  Forall box_sound boxes -> Forall box_sound (place_unit maxW maxV boxes u).
Proof.
  intros H. unfold place_unit.
  destruct (first_fit maxW maxV u boxes) as [boxes'|] eqn:E.
  - eapply first_fit_sound; eauto.
  - apply Forall_app. split; [exact H|].
    constructor; [|constructor].
    unfold box_sound, sum_weight, sum_volume. simpl.
    repeat split; try ring. discriminate.
Qed.

Lemma pack_units_sound (maxW maxV : Q) (units : list CartItem)
    (boxes : list Box) :
  Forall box_sound boxes -> Forall box_sound (pack_units maxW maxV units boxes).
Proof.
  intros H. unfold pack_units.
  apply fold_left_invariant; [exact H|].
  intros bs u Hbs. now apply place_unit_sound.
Qed.

Lemma concat_length_nonempty {A : Type} (ls : list (list A)) :
  Forall (fun l => l <> []) ls -> (length ls <= length (concat ls))%nat.
Proof.
  induction 1 as [|l ls Hl _ IH]; simpl; [lia|].
  rewrite length_app. destruct l; [congruence|]. simpl. lia.
Qed.

(** X10. No box is empty, so there are never more boxes than units; an
    empty cart gives no box at all. *)
Theorem packForDelivery_no_empty_box (cartItems : list CartItem)
    (options : option PackOptions) :
  Forall (fun b : Box => items b <> []) (packForDelivery cartItems options)
  /\ (length (packForDelivery cartItems options)
      <= length (expand_spec cartItems))%nat.
Proof.
  assert (H : Forall (fun b : Box => items b <> [])
                (packForDelivery cartItems options)).
  { eapply List.Forall_impl;
      [|apply (pack_units_sound (maxWeightKg_of options)
                 (maxVolumeCm3_of options) (bySizeDesc cartItems) []);
        constructor].
    intros b (_ & _ & Hne). exact Hne. }
  split; [exact H|].
  assert (Hperm : Permutation (packed_units (packForDelivery cartItems options))
                    (expand_spec cartItems)).
  { unfold packForDelivery. rewrite pack_units_units. unfold packed_units.
    simpl. rewrite app_nil_r. unfold bySizeDesc.
    rewrite Array_sort_perm. now rewrite expand_correct. }
  rewrite <- (Permutation_length Hperm). unfold packed_units.
  rewrite <- (length_map items (packForDelivery cartItems options)).
  apply concat_length_nonempty. now apply Forall_map.
Qed.

(** ** Largest first *)

Lemma packForDelivery_packed_perm (cartItems : list CartItem)
    (options : option PackOptions) :
  Permutation (packed_units (packForDelivery cartItems options))
    (expand_spec cartItems).
Proof.
  unfold packForDelivery. rewrite pack_units_units. unfold packed_units.
  simpl. rewrite app_nil_r. unfold bySizeDesc.
  rewrite Array_sort_perm. now rewrite expand_correct.
Qed.

Lemma Sorted_weaken {A : Type} (R R' : A -> A -> Prop) (l : list A) :
  (forall a b, R a b -> R' a b) -> Sorted R l -> Sorted R' l.
Proof.
  intros HR. induction 1 as [|x l Hs IH Hhd]; constructor; [exact IH|].
  destruct Hhd; constructor. now apply HR.
Qed.

#[export] Instance larger_first_transitive : Transitive larger_first.
Proof. intros a b c Hab Hbc. unfold larger_first in *. lra. Qed.

Lemma bySizeDesc_strongly_sorted (cartItems : list CartItem) :
  StronglySorted larger_first (bySizeDesc cartItems).
Proof.
  apply Sorted_StronglySorted; [apply larger_first_transitive|].
  unfold bySizeDesc.
  apply (Sorted_weaken (in_order (fun a b => (metric b - metric a)%Q))).
  - intros a b H. unfold in_order in H. apply positive_result_false in H.
    unfold larger_first. lra.
  - apply Array_sort_is_sorted. intros x y H.
    apply positive_result_true in H. unfold in_order.
    apply positive_result_false. lra.
Qed.

(** X11. In a cart where no line is sized by its weight, the units are
    placed largest first: in the order of placement every unit has a sizing
    metric at least as large as that of every unit placed after it. *)
Theorem bySizeDesc_descending (cartItems : list CartItem) (i j : nat)
    (a b : CartItem) :
  sized_without_product cartItems ->
  (i < j)%nat ->
  bySizeDesc cartItems !! i = Some a ->
  bySizeDesc cartItems !! j = Some b ->
  (metric b <= metric a)%Q.
Proof.
  intros _ Hij Ha Hb.
  pose proof (bySizeDesc_strongly_sorted cartItems) as Hs.
  revert i j Hij Ha Hb.
  induction Hs as [|x l Hs IH Hx]; intros i j Hij Ha Hb; [discriminate|].
  destruct j as [|j]; [lia|]. simpl in Hb.
  destruct i as [|i]; simpl in Ha.
  - injection Ha as <-. rewrite List.Forall_forall in Hx.
    apply Hx. apply list_elem_of_In. eapply list_elem_of_lookup_2. exact Hb.
  - apply (IH i j); [lia | exact Ha | exact Hb].
Qed.

Lemma sample_sized_without_product : sized_without_product [voucher; crates].
Proof.
  unfold sized_without_product.
  repeat (constructor; [left; eexists; reflexivity|]). constructor.
Qed.

(** Both crates (30000 cubic centimetres) are placed before the voucher
    (volume 0). *)
Lemma bySizeDesc_descending_witness :
  (metric voucher <= metric (with_quantity crates 1))%Q.
Proof.
  apply (bySizeDesc_descending [voucher; crates] 0 2
           (with_quantity crates 1) voucher sample_sized_without_product);
    [lia| |]; reflexivity.
Defined.

Lemma sublist_StronglySorted {A : Type} (R : A -> A -> Prop) (l1 l2 : list A) :
  l1 `sublist_of` l2 -> StronglySorted R l2 -> StronglySorted R l1.
Proof.
  induction 1 as [|x l1 l2 Hsub IH|x l1 l2 Hsub IH]; intros Hs.
  - constructor.
  - apply StronglySorted_inv in Hs as [Hs Hx]. constructor; [now apply IH|].
    rewrite List.Forall_forall in *. intros y Hy. apply Hx.
    apply list_elem_of_In. eapply elem_of_sublist; [|exact Hsub].
    now apply list_elem_of_In.
  - apply StronglySorted_inv in Hs as [Hs _]. now apply IH.
Qed.

Lemma first_fit_sublist (maxW maxV : Q) (u : CartItem) (placed : list CartItem)
    (boxes boxes' : list Box) :
  Forall (fun b => items b `sublist_of` placed) boxes ->
  first_fit maxW maxV u boxes = Some boxes' ->
  Forall (fun b => items b `sublist_of` placed ++ [u]) boxes'.
Proof.
  intros H. revert boxes'.
  induction H as [|box rest Hbox Hrest IH]; intros boxes' E; simpl in E.
  - discriminate.
  - assert (Hrest' : Forall (fun b => items b `sublist_of` placed ++ [u]) rest).
    { eapply List.Forall_impl; [|exact Hrest].
      intros b Hb. now apply sublist_inserts_r. }
    destruct (fits maxW maxV box u).
    + injection E as <-. constructor; [|exact Hrest'].
      simpl. now apply sublist_app.
    + destruct (first_fit maxW maxV u rest) as [rest'|]; simpl in E;
        [|discriminate].
      injection E as <-. constructor; [|now apply IH].
      now apply sublist_inserts_r.
Qed.

Lemma pack_units_sublist (maxW maxV : Q) (units placed : list CartItem)
    (boxes : list Box) :
  Forall (fun b => items b `sublist_of` placed) boxes ->
  Forall (fun b => items b `sublist_of` placed ++ units)
    (pack_units maxW maxV units boxes).
Proof.
  revert placed boxes.
  induction units as [|u units IH]; intros placed boxes H; simpl.
  - now rewrite app_nil_r.
  - rewrite (cons_middle u placed units), app_assoc. apply IH.
    unfold place_unit.
    destruct (first_fit maxW maxV u boxes) as [boxes'|] eqn:E.
    + now apply (first_fit_sublist maxW maxV u placed boxes).
    + apply Forall_app. split.
      * eapply List.Forall_impl; [|exact H].
        intros b Hb. now apply sublist_inserts_r.
      * constructor; [|constructor]. simpl.
        apply sublist_inserts_l. reflexivity.
Qed.

(** X12. In a cart where no line is sized by its weight, the units of
    every box are in the order they were placed, so largest first: each unit
    of a box has a sizing metric at least as large as that of every later
    unit of the same box. *)
Theorem packForDelivery_boxes_descending (cartItems : list CartItem)
    (options : option PackOptions) :
  sized_without_product cartItems ->
  Forall
    (fun b : Box =>
       StronglySorted (fun x y : CartItem => (metric y <= metric x)%Q) (items b))
    (packForDelivery cartItems options).
Proof.
  intros _.
  pose proof (pack_units_sublist (maxWeightKg_of options)
                (maxVolumeCm3_of options) (bySizeDesc cartItems) [] [])
    as H.
  simpl in H. specialize (H (List.Forall_nil _)).
  eapply List.Forall_impl; [|exact H].
  intros b Hb.
  apply (sublist_StronglySorted larger_first _ _ Hb).
  apply bySizeDesc_strongly_sorted.
Qed.

(** The voucher joins the first crate in box 1; the second crate is alone
    in box 2. *)
Lemma packForDelivery_boxes_descending_witness :
  Forall
    (fun b : Box =>
       StronglySorted (fun x y : CartItem => (metric y <= metric x)%Q) (items b))
    (packForDelivery [voucher; crates] None).
Proof.
  apply (packForDelivery_boxes_descending [voucher; crates] None).
  exact sample_sized_without_product.
Defined.

(** ** First fit *)

Lemma fits_false (maxW maxV : Q) (box : Box) (u : CartItem) :
  fits maxW maxV box u = false <->
  (maxW < totalWeightKg box + unitWeight u)%Q
  \/ (maxV < totalVolumeCm3 box + unitVolume u)%Q.
Proof.
  destruct (fits maxW maxV box u) eqn:E.
  - apply fits_spec in E. split; [discriminate|]. intros [H|H]; lra.
  - split; [intros _|reflexivity].
    destruct (Qlt_le_dec maxW (totalWeightKg box + unitWeight u)) as [H|Hw];
      [now left|].
    destruct (Qlt_le_dec maxV (totalVolumeCm3 box + unitVolume u)) as [H|Hv];
      [now right|].
    assert (fits maxW maxV box u = true) by (apply fits_spec; auto).
    congruence.
Qed.

(** A box that has taken one more unit of non-negative size accepts
    nothing it refused before. *)
Lemma fits_after_add (maxW maxV : Q) (box : Box) (u v : CartItem) :
  (0 <= unitWeight u)%Q -> (0 <= unitVolume u)%Q ->
  fits maxW maxV box v = false ->
  fits maxW maxV (add_to_box box u) v = false.
Proof.
  intros Hw Hv. rewrite !fits_false. simpl. intros [H|H]; [left|right]; lra.
Qed.

Lemma first_fit_none (maxW maxV : Q) (u : CartItem) (boxes : list Box) :
  first_fit maxW maxV u boxes = None ->
  Forall (fun b => fits maxW maxV b u = false) boxes.
Proof.
  induction boxes as [|box rest IH]; intros E; simpl in E; [constructor|].
  destruct (fits maxW maxV box u) eqn:Hfit; [discriminate|].
  destruct (first_fit maxW maxV u rest); [discriminate|].
  constructor; [exact Hfit | now apply IH].
Qed.

Lemma first_fit_heads (maxW maxV : Q) (u : CartItem) (boxes boxes' : list Box) :
  Forall box_sound boxes ->
  first_fit maxW maxV u boxes = Some boxes' ->
  map (fun b => head (items b)) boxes' = map (fun b => head (items b)) boxes.
Proof.
  intros H. revert boxes'.
  induction H as [|box rest Hbox Hrest IH]; intros boxes' E; simpl in E.
  - discriminate.
  - destruct (fits maxW maxV box u).
    + injection E as <-. simpl. f_equal.
      destruct Hbox as (_ & _ & Hne). now destruct (items box).
    + destruct (first_fit maxW maxV u rest) as [rest'|]; simpl in E;
        [|discriminate].
      injection E as <-. simpl. now rewrite (IH rest' eq_refl).
Qed.

Lemma opener_same_heads (maxW maxV : Q) (box : Box) (l l' : list Box) :
  map (fun b => head (items b)) l' = map (fun b => head (items b)) l ->
  Forall (opener_does_not_fit maxW maxV box) l ->
  Forall (opener_does_not_fit maxW maxV box) l'.
Proof.
  revert l'. induction l as [|y l IH]; intros [|y' l'] E H;
    try discriminate; [constructor|].
  simpl in E. injection E as Ey El.
  apply Forall_cons in H as [Hy Hl].
  constructor; [|now apply IH].
  intros v Hv. apply Hy. congruence.
Qed.

Lemma ForallOrdPairs_snoc {A : Type} (R : A -> A -> Prop) (l : list A) (x : A) :
  ForallOrdPairs R l -> Forall (fun y => R y x) l ->
  ForallOrdPairs R (l ++ [x]).
Proof.
  induction 1 as [|y l Hy Hl IH]; intros H; simpl.
  - repeat constructor.
  - apply Forall_cons in H as [Hyx H]. constructor; [|now apply IH].
    apply Forall_app. split; [exact Hy | now repeat constructor].
Qed.

Lemma ForallOrdPairs_lookup {A : Type} (R : A -> A -> Prop) (l : list A)
    (i j : nat) (a b : A) :
  ForallOrdPairs R l -> (i < j)%nat ->
  l !! i = Some a -> l !! j = Some b -> R a b.
Proof.
  intros H. revert i j.
  induction H as [|x l Hx Hl IH]; intros i j Hij Ha Hb; [discriminate|].
  destruct j as [|j]; [lia|]. simpl in Hb.
  destruct i as [|i]; simpl in Ha.
  - injection Ha as <-. rewrite List.Forall_forall in Hx.
    apply Hx, list_elem_of_In. eapply list_elem_of_lookup_2. exact Hb.
  - apply (IH i j); [lia | exact Ha | exact Hb].
Qed.

Section FirstFit.
Variables maxW maxV : Q.

Lemma first_fit_openers (u : CartItem) (boxes boxes' : list Box) :
  (0 <= unitWeight u)%Q -> (0 <= unitVolume u)%Q ->
  Forall box_sound boxes ->
  ForallOrdPairs (opener_does_not_fit maxW maxV) boxes ->
  first_fit maxW maxV u boxes = Some boxes' ->
  ForallOrdPairs (opener_does_not_fit maxW maxV) boxes'.
Proof.
  intros Hw Hv Hsound Hfop. revert boxes' Hsound.
  induction Hfop as [|box rest Hbox Hrest IH]; intros boxes' Hsound E;
    simpl in E; [discriminate|].
  apply Forall_cons in Hsound as [_ Hsound].
  destruct (fits maxW maxV box u).
  - injection E as <-. constructor; [|exact Hrest].
    eapply List.Forall_impl; [|exact Hbox].
    intros y Hy v Hhead. apply fits_after_add; auto.
  - destruct (first_fit maxW maxV u rest) as [rest'|] eqn:E'; simpl in E;
      [|discriminate].
    injection E as <-. constructor; [|now apply IH].
    apply (opener_same_heads maxW maxV box rest); [|exact Hbox].
    now apply (first_fit_heads maxW maxV u).
Qed.

Lemma place_unit_openers (u : CartItem) (boxes : list Box) :
  (0 <= unitWeight u)%Q -> (0 <= unitVolume u)%Q ->
  Forall box_sound boxes ->
  ForallOrdPairs (opener_does_not_fit maxW maxV) boxes ->
  ForallOrdPairs (opener_does_not_fit maxW maxV)
    (place_unit maxW maxV boxes u).
Proof.
  intros Hw Hv Hsound Hfop. unfold place_unit.
  destruct (first_fit maxW maxV u boxes) as [boxes'|] eqn:E.
  - now apply (first_fit_openers u boxes).
  - apply ForallOrdPairs_snoc; [exact Hfop|].
    eapply List.Forall_impl; [|apply (first_fit_none _ _ _ _ E)].
    intros b Hb v Hhead. simpl in Hhead. now injection Hhead as <-.
Qed.

Lemma pack_units_openers (units : list CartItem) (boxes : list Box) :
  nonnegative_sizes units ->
  Forall box_sound boxes ->
  ForallOrdPairs (opener_does_not_fit maxW maxV) boxes ->
  ForallOrdPairs (opener_does_not_fit maxW maxV)
    (pack_units maxW maxV units boxes).
Proof.
  intros Hnn. revert boxes.
  induction Hnn as [|u units [Hw Hv] _ IH]; intros boxes Hsound Hfop; simpl.
  - exact Hfop.
  - apply IH.
    + now apply place_unit_sound.
    + now apply place_unit_openers.
Qed.
End FirstFit.

Lemma nonnegative_sizes_expand (cartItems : list CartItem) :
  nonnegative_sizes cartItems -> nonnegative_sizes (expand_spec cartItems).
Proof.
  unfold nonnegative_sizes. rewrite !List.Forall_forall.
  intros H u Hu. apply list_elem_of_In, expand_spec_elem_of in Hu.
  destruct Hu as (it & Hit & ->). apply list_elem_of_In in Hit.
  exact (H it Hit).
Qed.

Lemma nonnegative_sizes_bySizeDesc (cartItems : list CartItem) :
  nonnegative_sizes cartItems -> nonnegative_sizes (bySizeDesc cartItems).
Proof.
  intros H. unfold nonnegative_sizes, bySizeDesc.
  rewrite Array_sort_perm, expand_correct.
  now apply nonnegative_sizes_expand.
Qed.

(** X13. First fit: when no weight and no volume in the cart is negative,
    the unit that opened a box does not fit into any earlier box, even with
    the totals those boxes have at the end. *)
Theorem packForDelivery_first_fit (cartItems : list CartItem)
    (options : option PackOptions) (i j : nat) (earlier later : Box)
    (u : CartItem) :
  nonnegative_sizes cartItems ->
  (i < j)%nat ->
  packForDelivery cartItems options !! i = Some earlier ->
  packForDelivery cartItems options !! j = Some later ->
  head (items later) = Some u ->
  (default 10 (options ≫= maxWeightKg)
     < totalWeightKg earlier + unitWeight u)%Q
  \/ (default 40000 (options ≫= maxVolumeCm3)
        < totalVolumeCm3 earlier + unitVolume u)%Q.
Proof.
  intros Hnn Hij Hi Hj Hu.
  apply (fits_false (maxWeightKg_of options) (maxVolumeCm3_of options)).
  assert (H : ForallOrdPairs
                (opener_does_not_fit (maxWeightKg_of options)
                   (maxVolumeCm3_of options))
                (packForDelivery cartItems options)).
  { apply pack_units_openers; [|constructor|constructor].
    now apply nonnegative_sizes_bySizeDesc. }
  exact (ForallOrdPairs_lookup _ _ i j earlier later H Hij Hi Hj u Hu).
Qed.

(** The second crate (30000 cubic centimetres) does not fit the box of
    the first. *)
Lemma packForDelivery_first_fit_witness :
  (10 < 0 + 0)%Q \/ (40000 < 30000 + 30000)%Q.
Proof.
  apply (packForDelivery_first_fit [crates] None 0 1
           (mkBox 1 [with_quantity crates 1] 0 30000)
           (mkBox 2 [with_quantity crates 1] 0 30000)
           (with_quantity crates 1)); try reflexivity; [|lia].
  repeat constructor; unfold Qle; simpl; lia.
Defined.

(** ** Oversized units, and the number of units *)

Lemma sum_weight_ge (l : list CartItem) (u : CartItem) :
  nonnegative_sizes l -> u ∈ l -> (unitWeight u <= sum_weight l)%Q.
Proof.
  unfold sum_weight. induction 1 as [|x l [Hx _] Hl IH]; intros Hu.
  - now apply elem_of_nil in Hu.
  - assert (Hsum : (0 <= fold_right (fun v acc => unitWeight v + acc) 0 l)%Q).
    { clear IH Hu. induction Hl as [|y l [Hy _] _ IHl]; simpl; lra. }
    simpl. apply elem_of_cons in Hu as [->|Hu]; [lra|].
    specialize (IH Hu). lra.
Qed.

Lemma sum_volume_ge (l : list CartItem) (u : CartItem) :
  nonnegative_sizes l -> u ∈ l -> (unitVolume u <= sum_volume l)%Q.
Proof.
  unfold sum_volume. induction 1 as [|x l [_ Hx] Hl IH]; intros Hu.
  - now apply elem_of_nil in Hu.
  - assert (Hsum : (0 <= fold_right (fun v acc => unitVolume v + acc) 0 l)%Q).
    { clear IH Hu. induction Hl as [|y l [_ Hy] _ IHl]; simpl; lra. }
    simpl. apply elem_of_cons in Hu as [->|Hu]; [lra|].
    specialize (IH Hu). lra.
Qed.

(** X14. When no weight and no volume in the cart is negative, a unit that
    alone exceeds the weight limit or the volume limit is the only unit of
    its box: nothing is ever packed with an oversized unit. *)
Theorem packForDelivery_oversized_alone (cartItems : list CartItem)
    (options : option PackOptions) (b : Box) (u : CartItem) :
  nonnegative_sizes cartItems ->
  b ∈ packForDelivery cartItems options ->
  u ∈ items b ->
  (default 10 (options ≫= maxWeightKg) < unitWeight u)%Q
  \/ (default 40000 (options ≫= maxVolumeCm3) < unitVolume u)%Q ->
  items b = [u].
Proof.
  intros Hnn Hb Hu Hbig.
  assert (Hok : box_ok (maxWeightKg_of options) (maxVolumeCm3_of options) b).
  { pose proof (pack_units_ok (maxWeightKg_of options)
                  (maxVolumeCm3_of options) (bySizeDesc cartItems) []
                  (List.Forall_nil _)) as H.
    rewrite Forall_forall in H. exact (H b Hb). }
  assert (Hsound : box_sound b).
  { pose proof (pack_units_sound (maxWeightKg_of options)
                  (maxVolumeCm3_of options) (bySizeDesc cartItems) []
                  (List.Forall_nil _)) as H.
    rewrite Forall_forall in H. exact (H b Hb). }
  assert (Hitems : nonnegative_sizes (items b)).
  { pose proof (nonnegative_sizes_expand cartItems Hnn) as H.
    unfold nonnegative_sizes in *. rewrite Forall_forall in *.
    intros v Hv. apply H.
    rewrite <- (packForDelivery_packed_perm cartItems options).
    unfold packed_units. apply list_elem_of_In, in_concat.
    exists (items b). split; [|now apply list_elem_of_In].
    apply in_map. now apply list_elem_of_In. }
  destruct Hok as [[HW HV]|Hone].
  - destruct Hsound as (Hw & Hv & _).
    pose proof (sum_weight_ge (items b) u Hitems Hu).
    pose proof (sum_volume_ge (items b) u Hitems Hu).
    unfold maxWeightKg_of, maxVolumeCm3_of in *.
    destruct Hbig; lra.
  - destruct (items b) as [|x [|y l]]; try discriminate.
    apply list_elem_of_singleton in Hu. now subst.
Qed.

(** The pumpkin (15 kg against 10) is alone in box 1. *)
Lemma packForDelivery_oversized_alone_witness :
  items (mkBox 1 [pumpkin] 15 0) = [pumpkin].
Proof.
  apply (packForDelivery_oversized_alone [pumpkin; voucher] None
           (mkBox 1 [pumpkin] 15 0) pumpkin).
  - repeat constructor; unfold Qle; simpl; lia.
  - apply list_elem_of_here.
  - apply list_elem_of_here.
  - left. reflexivity.
Defined.

Lemma expand_spec_length (cartItems : list CartItem) :
  Forall (fun it : CartItem => 0 <= quantity it) cartItems ->
  Z.of_nat (length (expand_spec cartItems)) = getCartCount cartItems.
Proof.
  unfold expand_spec.
  induction 1 as [|it l Hit _ IH]; simpl; [reflexivity|].
  rewrite length_app, repeat_length, getCartCount_cons.
  rewrite Nat2Z.inj_add, IH. lia.
Qed.

(** X15. For a cart without negative quantities, the boxes hold as many
    units as [getCartCount] counts. *)
Theorem packForDelivery_unit_count (cartItems : list CartItem)
    (options : option PackOptions) :
  Forall (fun it : CartItem => 0 <= quantity it) cartItems ->
  Z.of_nat (length (concat (map items (packForDelivery cartItems options))))
  = getCartCount cartItems.
Proof.
  intros H. rewrite <- (expand_spec_length cartItems H).
  f_equal. apply Permutation_length.
  apply packForDelivery_packed_perm.
Qed.

(** Four sacks: four units in the boxes. *)
Lemma packForDelivery_unit_count_witness :
  Z.of_nat (length (concat (map items (packForDelivery [sacks] None)))) = 4.
Proof.
  rewrite (packForDelivery_unit_count [sacks] None); [reflexivity|].
  repeat constructor. simpl. lia.
Defined.

(** * Further properties of the recommendation scorer *)

(** ** Invariants of the accumulator, stage by stage *)

Lemma fold_left_invariant_in {A B : Type} (P : A -> Prop) (f : A -> B -> A)
    (l : list B) (a : A) :
  P a -> (forall a x, x ∈ l -> P a -> P (f a x)) -> P (fold_left f l a).
Proof.
  revert a. induction l as [|x l IH]; intros a Ha Hf; simpl; [exact Ha|].
  apply IH.
  - apply Hf; [apply list_elem_of_here | exact Ha].
  - intros a' y Hy. apply Hf. now apply list_elem_of_further.
Qed.

Section ScorerInvariant.
Variable cartItems : list CartItem.
Variable allProducts : list Product.
Variable options : option RecOptions.

(** A property of the accumulator that every [push] with an argument of
    the kind the branches use preserves. *)
Variable P : Acc -> Prop.
Variable Good : option Z -> string -> Q -> Prop.

Hypothesis push_P : forall pid reason_ score_ acc,
  Good pid reason_ score_ -> P acc ->
  P (push cartItems allProducts options pid reason_ score_ acc).
Hypothesis good_bought : forall i count,
  (i, count) ∈ freq cartItems ->
  Good (Some i) "bought together" (inject_Z count).
Hypothesis good_browsing : forall pid shared,
  (0 < shared)%nat ->
  Good pid "browsing history" (inject_Z (Z.of_nat shared)).
Hypothesis good_category : forall pid, Good pid "same category" 1%Q.
Hypothesis good_tag : forall pid, Good pid "same tag" 1%Q.

Lemma bought_together_inv (acc : Acc) :
  P acc -> P (bought_together cartItems allProducts options acc).
Proof.
  intros Hacc. unfold bought_together.
  apply fold_left_invariant_in; [exact Hacc|].
  intros a [i count] Hin Ha. apply push_P; [|exact Ha].
  apply good_bought. now apply Array_sort_elem_of in Hin.
Qed.

Lemma browsing_history_inv (acc : Acc) :
  P acc -> P (browsing_history cartItems allProducts options acc).
Proof.
  intros Hacc. unfold browsing_history.
  destruct (0 <? length (browsing options))%nat; [|exact Hacc].
  destruct (0 <? length (browsed_tags allProducts options))%nat; [|exact Hacc].
  apply fold_left_invariant; [exact Hacc|].
  intros a p Ha. simpl.
  destruct (_ || _); [exact Ha|].
  match goal with
  | |- context [(0 <? ?n)%nat] => destruct (Nat.ltb_spec 0 n) as [Hn|Hn]
  end; [|exact Ha].
  apply push_P; [now apply good_browsing | exact Ha].
Qed.

Lemma same_category_inv (ps : list Product) (acc : Acc) :
  P acc -> P (same_category cartItems allProducts options ps acc).
Proof.
  revert acc. induction ps as [|p ps IH]; intros acc Hacc; simpl; [exact Hacc|].
  destruct (_ || _); [now apply IH|].
  assert (Hacc' : P
            (if bool_decide (category p ∈ cartCategories cartItems)
             then push cartItems allProducts options (Number_id (id p))
                    "same category" 1%Q acc
             else acc)).
  { destruct (bool_decide _); [|exact Hacc].
    apply push_P; [apply good_category | exact Hacc]. }
  destruct (MAX options <=? _); [exact Hacc' | now apply IH].
Qed.

Lemma same_tag_inv (tagsArr : list string) (draws : list nat) (acc : Acc) :
  P acc -> P (same_tag cartItems allProducts options tagsArr draws acc).
Proof.
  revert draws acc.
  induction tagsArr as [|tag tagsArr IH]; intros draws acc Hacc; simpl;
    [exact Hacc|].
  destruct (shuffle _ draws) as [shuffled draws'].
  match goal with
  | |- context [fold_left ?f ?l acc] => assert (Hacc' : P (fold_left f l acc))
  end.
  { apply fold_left_invariant; [exact Hacc|].
    intros a p Ha. apply push_P; [apply good_tag | exact Ha]. }
  destruct (MAX options <=? _); [exact Hacc' | now apply IH].
Qed.

(** What holds of the empty accumulator and is preserved by [push] holds
    of the accumulator the branches end with. *)
Lemma collect_inv (draws : list nat) :
  P {| recs := []; seen := ∅ |} ->
  exists acc : Acc,
    P acc /\ collect cartItems allProducts options draws = recs acc.
Proof.
  intros H0. unfold collect.
  destruct (0 <? length cartItems)%nat.
  - eexists. split; [|reflexivity]. unfold nonempty_cart.
    assert (H1 : P (browsing_history cartItems allProducts options
                      (bought_together cartItems allProducts options
                         {| recs := []; seen := ∅ |})))
      by now apply browsing_history_inv, bought_together_inv.
    destruct (_ <? MIN options); [now apply same_category_inv | exact H1].
  - eexists. split; [|reflexivity]. now apply same_tag_inv.
Qed.
End ScorerInvariant.

(** ** From the gathered recommendations to the answer *)

Lemma localCompute_prefix (localeCompare : string -> string -> Q)
    (cartItems : list CartItem) (allProducts : list Product)
    (options : option RecOptions) (draws : list nat) :
  localCompute localeCompare cartItems allProducts options draws
  `prefix_of` Array_sort (compare_recs localeCompare)
                (collect cartItems allProducts options draws).
Proof. unfold localCompute. apply slice0_prefix. Qed.

Lemma localCompute_Forall (holds : Recommendation -> Prop)
    (localeCompare : string -> string -> Q)
    (cartItems : list CartItem) (allProducts : list Product)
    (options : option RecOptions) (draws : list nat) :
  Forall holds (collect cartItems allProducts options draws) ->
  Forall holds (localCompute localeCompare cartItems allProducts options draws).
Proof.
  intros H.
  destruct (localCompute_prefix localeCompare cartItems allProducts options
              draws) as [rest E].
  rewrite <- (Array_sort_perm (compare_recs localeCompare)), E in H.
  now apply Forall_app in H as [H _].
Qed.

(** ** No product twice *)

Lemma push_no_duplicate (cartItems : list CartItem) (allProducts : list Product)
    (options : option RecOptions) (pid : option Z) (reason_ : string)
    (score_ : Q) (acc : Acc) :
  NoDup (rec_ids (recs acc))
  /\ (forall k, k ∈ rec_ids (recs acc) -> k ∈ seen acc) ->
  NoDup (rec_ids (recs (push cartItems allProducts options pid reason_ score_ acc)))
  /\ (forall k,
        k ∈ rec_ids (recs (push cartItems allProducts options pid reason_
                             score_ acc)) ->
        k ∈ seen (push cartItems allProducts options pid reason_ score_ acc)).
Proof.
  intros [Hnd Hseen]. unfold push.
  destruct (bool_decide (pid ∈ cartIds cartItems)); simpl; [now split|].
  destruct (bool_decide (pid ∈ seen acc)) eqn:Hpid; simpl; [now split|].
  destruct (bool_decide (pid ∈ purchasedIdSet options)); simpl; [now split|].
  destruct (productById allProducts !! pid) as [prod|] eqn:Hprod; [|now split].
  apply productById_key in Hprod. apply bool_decide_eq_false in Hpid.
  simpl. unfold rec_ids. rewrite map_app. simpl. rewrite Hprod.
  split.
  - apply NoDup_app. split; [exact Hnd|]. split; [|apply NoDup_singleton].
    intros k Hk Hk'. apply list_elem_of_singleton in Hk'. subst k.
    apply Hpid, Hseen, Hk.
  - intros k Hk. apply elem_of_app in Hk as [Hk|Hk].
    + apply elem_of_union_r. now apply Hseen.
    + apply list_elem_of_singleton in Hk. subst k.
      apply elem_of_union_l. now apply elem_of_singleton.
Qed.

(** X16. The local computation never recommends the same product id twice. *)
Theorem localCompute_no_duplicate (localeCompare : string -> string -> Q)
    (cartItems : list CartItem) (allProducts : list Product)
    (options : option RecOptions) (draws : list nat) :
  NoDup
    (map (fun r => Number_id (id (product r)))
       (localCompute localeCompare cartItems allProducts options draws)).
Proof.
  assert (H0 : NoDup (rec_ids [])
               /\ (forall k, k ∈ rec_ids [] -> k ∈ (∅ : gset (option Z)))).
  { split; [constructor|]. intros k Hk. now apply elem_of_nil in Hk. }
  destruct (collect_inv cartItems allProducts options
              (fun acc => NoDup (rec_ids (recs acc))
                          /\ (forall k, k ∈ rec_ids (recs acc) -> k ∈ seen acc))
              (fun _ _ _ => True)
              (fun pid reason_ score_ a _ =>
                 push_no_duplicate cartItems allProducts options pid reason_
                   score_ a)
              (fun _ _ _ => I) (fun _ _ _ => I) (fun _ => I) (fun _ => I)
              draws H0)
    as (acc & [Hnd _] & E).
  destruct (localCompute_prefix localeCompare cartItems allProducts options
              draws) as [rest Hrest].
  rewrite <- E in Hnd.
  unfold rec_ids in Hnd.
  rewrite <- (Array_sort_perm (compare_recs localeCompare)), Hrest in Hnd.
  rewrite map_app in Hnd. now apply NoDup_app in Hnd as [Hnd _].
Qed.

(** ** Only products of the catalogue *)

Lemma productById_elem (allProducts : list Product) (k : option Z) (p : Product) :
  productById allProducts !! k = Some p -> p ∈ allProducts.
Proof.
  unfold productById.
  apply (fold_left_invariant_in
           (fun m : gmap (option Z) Product =>
              m !! k = Some p -> p ∈ allProducts)).
  - rewrite lookup_empty. discriminate.
  - intros m q Hq IH. rewrite lookup_insert. case_decide as Hk.
    + now intros [= <-].
    + exact IH.
Qed.

Lemma push_from_catalogue (cartItems : list CartItem)
    (allProducts : list Product) (options : option RecOptions)
    (pid : option Z) (reason_ : string) (score_ : Q) (acc : Acc) :
  Forall (fun r => product r ∈ allProducts) (recs acc) ->
  Forall (fun r => product r ∈ allProducts)
    (recs (push cartItems allProducts options pid reason_ score_ acc)).
Proof.
  intros H. unfold push.
  destruct (_ || _); [exact H|].
  destruct (productById allProducts !! pid) as [prod|] eqn:Hprod; [|exact H].
  simpl. apply Forall_app. split; [exact H|].
  constructor; [|constructor]. simpl. now apply productById_elem in Hprod.
Qed.

Lemma mapped_from_catalogue (allProducts : list Product) (res : list ServerRec) :
  Forall (fun r => product r ∈ allProducts) (mapped allProducts res).
Proof.
  apply Forall_forall. intros r Hr. unfold mapped in Hr.
  apply list_elem_of_omap in Hr as (sr & _ & E).
  destruct (List.find _ allProducts) as [prod|] eqn:Hfind; [|discriminate].
  injection E as <-. simpl.
  apply find_some in Hfind as [Hin _]. now apply list_elem_of_In.
Qed.

(** X17. Whatever the service answers, every recommendation of the hook
    carries a product of the catalogue it was given: ids the catalogue does
    not know are dropped, on the remote path as on the local one. *)
Theorem useRecommendations_from_catalogue
    (localeCompare : string -> string -> Q)
    (cartItems : list CartItem) (allProducts : list Product)
    (options : option RecOptions) (remote : option (list ServerRec))
    (draws : list nat) :
  Forall (fun r => product r ∈ allProducts)
    (useRecommendations localeCompare cartItems allProducts options remote draws).
Proof.
  assert (Hlocal : Forall (fun r => product r ∈ allProducts)
                     (localCompute localeCompare cartItems allProducts options
                        draws)).
  { apply localCompute_Forall.
    destruct (collect_inv cartItems allProducts options
                (fun acc => Forall (fun r => product r ∈ allProducts) (recs acc))
                (fun _ _ _ => True)
                (fun pid reason_ score_ a _ =>
                   push_from_catalogue cartItems allProducts options pid
                     reason_ score_ a)
                (fun _ _ _ => I) (fun _ _ _ => I) (fun _ => I) (fun _ => I)
                draws (List.Forall_nil _))
      as (acc & Hacc & ->).
    exact Hacc. }
  unfold useRecommendations. destruct remote as [res|]; [|exact Hlocal].
  destruct (0 <? length (mapped allProducts res))%nat; [|exact Hlocal].
  destruct (slice0_prefix (mapped allProducts res)
              (default 10 (options ≫= maxRecommendations))) as [rest E].
  pose proof (mapped_from_catalogue allProducts res) as H.
  rewrite E in H. now apply Forall_app in H as [H _].
Qed.

(** ** Scores and reasons of the local computation *)

Lemma Map_get_elem {K V : Type} `{EqDecision K} (m : list (K * V)) (k : K)
    (v : V) :
  Map_get m k = Some v -> (k, v) ∈ m.
Proof.
  induction m as [|[k' v'] m IH]; simpl; [discriminate|].
  case_decide as Hk.
  - intros [= ->]. subst k'. apply list_elem_of_here.
  - intros H. apply list_elem_of_further. now apply IH.
Qed.

Lemma Map_set_elem {K V : Type} `{EqDecision K} (m : list (K * V)) (k : K)
    (v : V) (e : K * V) :
  e ∈ Map_set m k v -> e ∈ m \/ e = (k, v).
Proof.
  induction m as [|[k' v'] m IH]; simpl.
  - intros H. apply list_elem_of_singleton in H. now right.
  - case_decide as Hk.
    + intros H. apply elem_of_cons in H as [->|H]; [now right|].
      left. now apply list_elem_of_further.
    + intros H. apply elem_of_cons in H as [->|H].
      * left. apply list_elem_of_here.
      * destruct (IH H) as [H'|H']; [left|now right].
        now apply list_elem_of_further.
Qed.

(** Every count of [freq] is at least 1. *)
Lemma freq_counts (cartItems : list CartItem) (i count : Z) :
  (i, count) ∈ freq cartItems -> 1 <= count.
Proof.
  unfold freq.
  pose (inv := fun fq : list (Z * Z) => forall e, e ∈ fq -> 1 <= e.2).
  assert (H : inv
    (fold_left
       (fun fq h =>
          if existsb (fun i => bool_decide (Some i ∈ cartIds cartItems))
               (history_items h)
          then
            fold_left
              (fun fq i =>
                 if bool_decide (Some i ∈ cartIds cartItems) then fq
                 else Map_set fq i (default 0 (Map_get fq i) + 1))
              (history_items h) fq
          else fq)
       mockPurchaseHistory [])).
  { apply fold_left_invariant.
    - intros e He. now apply elem_of_nil in He.
    - intros fq h Hfq. destruct (existsb _ _); [|exact Hfq].
      apply fold_left_invariant; [exact Hfq|].
      intros fq' j Hfq'. destruct (bool_decide _); [exact Hfq'|].
      intros e He. apply Map_set_elem in He as [He| ->]; [now apply Hfq'|].
      simpl. destruct (Map_get fq' j) as [c|] eqn:Ec; simpl; [|lia].
      apply Map_get_elem in Ec. specialize (Hfq' _ Ec). simpl in Hfq'. lia. }
  intros Hin. exact (H _ Hin).
Qed.

Lemma push_local_signal (cartItems : list CartItem)
    (allProducts : list Product) (options : option RecOptions)
    (pid : option Z) (reason_ : string) (score_ : Q) (acc : Acc) :
  local_signal reason_ score_ ->
  Forall (fun r => local_signal (reason r) (score r)) (recs acc) ->
  Forall (fun r => local_signal (reason r) (score r))
    (recs (push cartItems allProducts options pid reason_ score_ acc)).
Proof.
  intros Hgood H. unfold push.
  destruct (_ || _); [exact H|].
  destruct (productById allProducts !! pid) as [prod|]; [|exact H].
  simpl. apply Forall_app. split; [exact H|].
  constructor; [exact Hgood | constructor].
Qed.

Lemma inject_Z_positive (z : Z) : 0 < z -> (0 < inject_Z z)%Q.
Proof. intros H. unfold Qlt, inject_Z. simpl. lia. Qed.

(** X18. Every recommendation of the local computation has a positive
    score and one of the four reasons that have a priority, so the ranking
    never falls back on priority 0. *)
Theorem localCompute_signal (localeCompare : string -> string -> Q)
    (cartItems : list CartItem) (allProducts : list Product)
    (options : option RecOptions) (draws : list nat) :
  Forall
    (fun r => (0 < score r)%Q
              /\ reason r ∈ ["bought together"; "browsing history";
                             "same tag"; "same category"])
    (localCompute localeCompare cartItems allProducts options draws).
Proof.
  assert (Hone : local_signal "same category" 1 /\ local_signal "same tag" 1).
  { split; (split; [reflexivity | eexists; reflexivity]). }
  destruct (collect_inv cartItems allProducts options
              (fun acc => Forall (fun r => local_signal (reason r) (score r))
                            (recs acc))
              (fun _ reason_ score_ => local_signal reason_ score_)
              (fun pid reason_ score_ a Hg =>
                 push_local_signal cartItems allProducts options pid reason_
                   score_ a Hg)
              (fun i count Hin =>
                 conj (inject_Z_positive count
                         ltac:(apply freq_counts in Hin; lia))
                      (ex_intro _ 4 eq_refl))
              (fun _ shared Hs =>
                 conj (inject_Z_positive (Z.of_nat shared) ltac:(lia))
                      (ex_intro _ 3 eq_refl))
              (fun _ => proj1 Hone) (fun _ => proj2 Hone)
              draws (List.Forall_nil _))
    as (acc & Hacc & E).
  apply localCompute_Forall. rewrite E.
  eapply List.Forall_impl; [|exact Hacc].
  intros r [Hs [p Hp]]. split; [exact Hs|].
  unfold reasonPriority in Hp.
  repeat match type of Hp with
         | (if String.eqb ?a ?b then _ else _) = _ =>
             destruct (String.eqb_spec a b) as [->|_];
             [repeat (first [apply list_elem_of_here | apply list_elem_of_further])|]
         end.
  discriminate.
Qed.

(** ** The ranking *)

Lemma sort_insert_sorted_rel {A : Type} (compareFn : A -> A -> Q)
    (R : A -> A -> Prop) (x : A) (l : list A) :
  (forall a b, positive_result (compareFn a b) = true -> R b a) ->
  (forall a b, positive_result (compareFn a b) = false -> R a b) ->
  Sorted R l -> Sorted R (sort_insert compareFn x l).
Proof.
  intros Hpos Hneg.
  induction 1 as [|y l Hs IH Hhd]; simpl.
  - repeat constructor.
  - destruct (positive_result (compareFn x y)) eqn:E.
    + constructor; [exact IH|].
      destruct Hhd as [|z l Hyz]; simpl.
      * constructor. now apply Hpos.
      * destruct (positive_result (compareFn x z));
          constructor; [exact Hyz | now apply Hpos].
    + constructor; [now constructor|]. constructor. now apply Hneg.
Qed.

Lemma Array_sort_sorted_rel {A : Type} (compareFn : A -> A -> Q)
    (R : A -> A -> Prop) (l : list A) :
  (forall a b, positive_result (compareFn a b) = true -> R b a) ->
  (forall a b, positive_result (compareFn a b) = false -> R a b) ->
  Sorted R (Array_sort compareFn l).
Proof.
  intros Hpos Hneg. induction l as [|x l IH]; simpl; [constructor|].
  now apply sort_insert_sorted_rel.
Qed.

Lemma Sorted_prefix {A : Type} (R : A -> A -> Prop) (l1 l2 : list A) :
  l1 `prefix_of` l2 -> Sorted R l2 -> Sorted R l1.
Proof.
  intros [k ->]. induction l1 as [|x l1 IH]; simpl; intros H; [constructor|].
  apply Sorted_inv in H as [Hs Hhd]. constructor; [now apply IH|].
  destruct l1; [constructor|]. simpl in Hhd.
  apply HdRel_inv in Hhd. now constructor.
Qed.

Lemma compare_recs_positive (localeCompare : string -> string -> Q)
    (a b : Recommendation) :
  positive_result (compare_recs localeCompare a b) = true -> rank_order b a.
Proof.
  unfold compare_recs, rank_order, priority_of.
  destruct (Qeq_bool (score b) (score a)) eqn:Es; simpl.
  - apply Qeq_bool_iff in Es.
    destruct (Z.eqb_spec (default 0 (reasonPriority (reason b)))
                (default 0 (reasonPriority (reason a)))) as [Ep|Ep]; simpl.
    + intros _. right. split; [now symmetry | lia].
    + rewrite positive_result_true. intros H. right.
      split; [now symmetry|].
      unfold Qlt, inject_Z in H. simpl in H. lia.
  - rewrite positive_result_true. intros H. left. lra.
Qed.

Lemma compare_recs_not_positive (localeCompare : string -> string -> Q)
    (a b : Recommendation) :
  positive_result (compare_recs localeCompare a b) = false -> rank_order a b.
Proof.
  unfold compare_recs, rank_order, priority_of.
  destruct (Qeq_bool (score b) (score a)) eqn:Es; simpl.
  - apply Qeq_bool_iff in Es.
    destruct (Z.eqb_spec (default 0 (reasonPriority (reason b)))
                (default 0 (reasonPriority (reason a)))) as [Ep|Ep]; simpl.
    + intros _. right. split; [exact Es | lia].
    + rewrite positive_result_false. intros H. right. split; [exact Es|].
      unfold Qle, inject_Z in H. simpl in H. lia.
  - rewrite positive_result_false. intros H. left.
    apply Qeq_bool_neq in Es.
    destruct (Qlt_le_dec (score b) (score a)) as [Hlt|Hle]; [exact Hlt|].
    exfalso. apply Es. apply Qle_antisym; lra.
Qed.

(** X19. The local answer is ranked: along the list the score never goes
    up, and where two neighbours have the same score the priority of the
    reason never goes up, whatever [localeCompare] does. *)
Theorem localCompute_ranked (localeCompare : string -> string -> Q)
    (cartItems : list CartItem) (allProducts : list Product)
    (options : option RecOptions) (draws : list nat) :
  Sorted
    (fun a b : Recommendation =>
       (score b < score a)%Q
       \/ ((score b == score a)%Q
           /\ default 0 (reasonPriority (reason b))
              <= default 0 (reasonPriority (reason a))))
    (localCompute localeCompare cartItems allProducts options draws).
Proof.
  apply (Sorted_prefix rank_order _ _
           (localCompute_prefix localeCompare cartItems allProducts options
              draws)).
  apply Array_sort_sorted_rel.
  - apply compare_recs_positive.
  - apply compare_recs_not_positive.
Qed.

(** ** The shuffle *)

Lemma insert_exchange {A : Type} (t : list A) (j : nat) (h y : A) :
  t !! j = Some y -> Permutation (y :: <[j := h]> t) (h :: t).
Proof.
  revert j. induction t as [|z t IH]; intros j Hj; [discriminate|].
  destruct j as [|j]; simpl in *.
  - injection Hj as ->. apply perm_swap.
  - rewrite perm_swap, (IH j Hj). apply perm_swap.
Qed.

Lemma swap_perm {A : Type} (a : list A) (i j : nat) :
  Permutation (swap a i j) a.
Proof.
  revert i j. induction a as [|h t IH]; intros i j.
  - unfold swap. now destruct i.
  - destruct i as [|i], j as [|j]; unfold swap; simpl.
    + reflexivity.
    + destruct (t !! j) as [y|] eqn:Ej; [|reflexivity].
      now apply insert_exchange.
    + destruct (t !! i) as [x|] eqn:Ei; [|reflexivity].
      now apply insert_exchange.
    + specialize (IH i j). unfold swap in IH.
      destruct (t !! i), (t !! j); try reflexivity.
      now constructor.
Qed.

Lemma shuffle_from_perm {A : Type} (i : nat) (a : list A) (draws : list nat) :
  Permutation (shuffle_from i a draws).1 a.
Proof.
  revert a draws. induction i as [|i IH]; intros a draws; simpl; [reflexivity|].
  destruct (random_below (S (S i)) draws) as [j draws'].
  rewrite IH. apply swap_perm.
Qed.

(** X20. Whatever the random draws are, the shuffle returns the candidates
    it was given, each exactly as often, in some order. *)
Theorem shuffle_permutation {A : Type} (a : list A) (draws : list nat) :
  Permutation (shuffle a draws).1 a.
Proof. unfold shuffle. apply shuffle_from_perm. Qed.

(** * Properties of the cart page *)

Section CartPageFacts.
Variable cartItems : list CartItem.
Variable purchased : list Z.
Variable adminProducts : list Product.

Lemma item_ids_snoc (l : list RecItem) (x : RecItem) :
  item_ids (l ++ [x]) = item_ids l ++ [Number_id (id (item_product x))].
Proof. unfold item_ids. now rewrite map_app. Qed.

Lemma seen_matches_push (seen_ : gset (option Z)) (formatted : list RecItem)
    (x : RecItem) :
  seen_matches seen_ formatted ->
  Number_id (id (item_product x)) ∉ seen_ ->
  seen_matches ({[Number_id (id (item_product x))]} ∪ seen_) (formatted ++ [x]).
Proof.
  intros [Hnd Hseen] Hnew. split.
  - rewrite item_ids_snoc. apply NoDup_app.
    split; [exact Hnd|]. split; [|apply NoDup_singleton].
    intros k Hk Hk'. apply list_elem_of_singleton in Hk'. subst k.
    apply Hnew. now apply Hseen.
  - intros k. rewrite item_ids_snoc, elem_of_union, elem_of_app,
      elem_of_singleton, list_elem_of_singleton, Hseen. tauto.
Qed.

Lemma format_recommended_matches (recs_ : list Recommendation)
    (seen_ : gset (option Z)) (formatted : list RecItem) :
  seen_matches seen_ formatted ->
  seen_matches (format_recommended cartItems recs_ seen_ formatted).1
    (format_recommended cartItems recs_ seen_ formatted).2.
Proof.
  revert seen_ formatted.
  induction recs_ as [|r rest IH]; intros seen_ formatted H;
    cbn [format_recommended]; [exact H|].
  destruct (bool_decide (Number_id (id (product r)) ∈ seen_)) eqn:E;
    [now apply IH|].
  apply bool_decide_eq_false in E.
  pose proof (seen_matches_push seen_ formatted (format_one cartItems r) H E)
    as H'.
  match goal with
  | |- context [(10 <=? ?n)%nat] => destruct (10 <=? n)%nat
  end; [exact H' | now apply IH].
Qed.

Lemma pad_popular_matches (pool : list Product) (seen_ : gset (option Z))
    (formatted : list RecItem) :
  seen_matches seen_ formatted ->
  seen_matches (pad_popular pool seen_ formatted).1
    (pad_popular pool seen_ formatted).2.
Proof.
  revert seen_ formatted.
  induction pool as [|p rest IH]; intros seen_ formatted H;
    cbn [pad_popular]; [exact H|].
  destruct (bool_decide (Number_id (id p) ∈ seen_)) eqn:E; [now apply IH|].
  apply bool_decide_eq_false in E.
  pose proof (seen_matches_push seen_ formatted (mkRecItem p "Popular" 0 0) H E)
    as H'.
  match goal with
  | |- context [(5 <=? ?n)%nat] => destruct (5 <=? n)%nat
  end; [exact H' | now apply IH].
Qed.

Lemma seen_matches_empty : seen_matches ∅ [].
Proof.
  split; [constructor|]. intros k. split; intros H.
  - now apply elem_of_empty in H.
  - now apply elem_of_nil in H.
Qed.

Lemma format_recommended_length (recs_ : list Recommendation)
    (seen_ : gset (option Z)) (formatted : list RecItem) :
  (length formatted < 10)%nat ->
  (length (format_recommended cartItems recs_ seen_ formatted).2 <= 10)%nat.
Proof.
  revert seen_ formatted.
  induction recs_ as [|r rest IH]; intros seen_ formatted H;
    cbn [format_recommended]; [simpl; lia|].
  destruct (bool_decide _); [now apply IH|].
  destruct (Nat.leb_spec 10 (length (formatted ++ [format_one cartItems r])))
    as [Hge|Hlt]; simpl.
  - rewrite length_app in *. simpl in *. lia.
  - now apply IH.
Qed.

Lemma pad_popular_length (pool : list Product) (seen_ : gset (option Z))
    (formatted : list RecItem) :
  (length formatted < 5)%nat ->
  (length (pad_popular pool seen_ formatted).2 <= 5)%nat.
Proof.
  revert seen_ formatted.
  induction pool as [|p rest IH]; intros seen_ formatted H;
    cbn [pad_popular]; [simpl; lia|].
  destruct (bool_decide _); [now apply IH|].
  destruct (Nat.leb_spec 5 (length (formatted ++ [mkRecItem p "Popular" 0 0])))
    as [Hge|Hlt]; simpl.
  - rewrite length_app in *. simpl in *. lia.
  - now apply IH.
Qed.

(** [formatRecs], with the state of its first loop named. *)
Lemma formatRecs_unfold (recommendations : list Recommendation) :
  let st := format_recommended cartItems (slice0 recommendations 10) ∅ [] in
  formatRecs cartItems purchased adminProducts recommendations
  = if (length st.2 <? 5)%nat
    then (pad_popular
            (List.filter
               (fun p => negb (bool_decide
                                 (Number_id (id p)
                                  ∈ excluded cartItems purchased)))
               adminProducts)
            st.1 st.2).2
    else st.2.
Proof.
  simpl. unfold formatRecs.
  now destruct (format_recommended cartItems (slice0 recommendations 10) ∅ []).
Qed.

(** X21. The list the cart page shows never has the same product id twice
    and never more than ten entries, whatever the hook returned. *)
Theorem formatRecs_no_duplicate_at_most_ten
    (recommendations : list Recommendation) :
  NoDup
    (map (fun x => Number_id (id (item_product x)))
       (formatRecs cartItems purchased adminProducts recommendations))
  /\ (length (formatRecs cartItems purchased adminProducts recommendations)
      <= 10)%nat.
Proof.
  rewrite formatRecs_unfold. simpl.
  set (st := format_recommended cartItems (slice0 recommendations 10) ∅ []).
  assert (Hm : seen_matches st.1 st.2)
    by apply format_recommended_matches, seen_matches_empty.
  assert (Hl : (length st.2 <= 10)%nat)
    by (apply format_recommended_length; simpl; lia).
  destruct (Nat.ltb_spec (length st.2) 5) as [Hlt|Hge].
  - split.
    + now apply pad_popular_matches.
    + pose proof (pad_popular_length
                    (List.filter
                       (fun p => negb (bool_decide
                                         (Number_id (id p)
                                          ∈ excluded cartItems purchased)))
                       adminProducts) st.1 st.2 Hlt). lia.
  - split; [apply Hm | exact Hl].
Qed.
End CartPageFacts.

Section CartPageOrigin.
Variable cartItems : list CartItem.
Variable purchased : list Z.
Variable adminProducts : list Product.

Lemma excluded_spec (k : option Z) :
  k ∈ excluded cartItems purchased
  <-> (exists i : CartItem, i ∈ cartItems /\ Number_id (id i) = k)
      \/ (exists n : Z, n ∈ purchased /\ Some n = k).
Proof.
  unfold excluded.
  rewrite elem_of_union, !elem_of_list_to_set, !list_elem_of_fmap.
  split; (intros [(x & E & Hx)|(x & E & Hx)]; [left|right]; exists x; auto).
Qed.

Lemma format_recommended_origin (recommendations recs_ : list Recommendation)
    (seen_ : gset (option Z)) (formatted : list RecItem) :
  (forall r, r ∈ recs_ -> r ∈ recommendations) ->
  Forall (item_origin cartItems purchased adminProducts recommendations)
    formatted ->
  Forall (item_origin cartItems purchased adminProducts recommendations)
    (format_recommended cartItems recs_ seen_ formatted).2.
Proof.
  revert seen_ formatted.
  induction recs_ as [|r rest IH]; intros seen_ formatted Hin H;
    cbn [format_recommended]; [exact H|].
  assert (Hrest : forall r', r' ∈ rest -> r' ∈ recommendations).
  { intros r' Hr'. apply Hin. now apply list_elem_of_further. }
  destruct (bool_decide _); [now apply IH|].
  assert (H' : Forall
                 (item_origin cartItems purchased adminProducts recommendations)
                 (formatted ++ [format_one cartItems r])).
  { apply Forall_app. split; [exact H|]. constructor; [|constructor].
    left. exists r. split; [|reflexivity]. apply Hin, list_elem_of_here. }
  match goal with
  | |- context [(10 <=? ?n)%nat] => destruct (10 <=? n)%nat
  end; [exact H' | now apply IH].
Qed.

Lemma pad_popular_origin (recommendations : list Recommendation)
    (pool : list Product) (seen_ : gset (option Z)) (formatted : list RecItem) :
  (forall p, p ∈ pool ->
     p ∈ adminProducts /\ Number_id (id p) ∉ excluded cartItems purchased) ->
  Forall (item_origin cartItems purchased adminProducts recommendations)
    formatted ->
  Forall (item_origin cartItems purchased adminProducts recommendations)
    (pad_popular pool seen_ formatted).2.
Proof.
  revert seen_ formatted.
  induction pool as [|p rest IH]; intros seen_ formatted Hpool H;
    cbn [pad_popular]; [exact H|].
  assert (Hrest : forall p', p' ∈ rest ->
            p' ∈ adminProducts
            /\ Number_id (id p') ∉ excluded cartItems purchased).
  { intros p' Hp'. apply Hpool. now apply list_elem_of_further. }
  destruct (bool_decide _); [now apply IH|].
  assert (H' : Forall
                 (item_origin cartItems purchased adminProducts recommendations)
                 (formatted ++ [mkRecItem p "Popular" 0 0])).
  { apply Forall_app. split; [exact H|]. constructor; [|constructor].
    destruct (Hpool p (list_elem_of_here _ _)) as [Hadmin Hex].
    right. simpl. split; [reflexivity|]. split; [exact Hadmin|].
    split.
    - intros i Hi E. apply Hex, excluded_spec. left. now exists i.
    - intros n Hn E. apply Hex, excluded_spec. right. now exists n. }
  match goal with
  | |- context [(5 <=? ?n)%nat] => destruct (5 <=? n)%nat
  end; [exact H' | now apply IH].
Qed.

Lemma pool_spec (p : Product) :
  p ∈ List.filter
        (fun p => negb (bool_decide
                          (Number_id (id p) ∈ excluded cartItems purchased)))
        adminProducts
  <-> p ∈ adminProducts /\ Number_id (id p) ∉ excluded cartItems purchased.
Proof.
  rewrite !list_elem_of_In, filter_In, negb_true_iff, bool_decide_eq_false.
  reflexivity.
Qed.

Lemma formatRecs_item_origin (recommendations : list Recommendation) :
  Forall (item_origin cartItems purchased adminProducts recommendations)
    (formatRecs cartItems purchased adminProducts recommendations).
Proof.
  rewrite formatRecs_unfold. simpl.
  assert (H1 : Forall
                 (item_origin cartItems purchased adminProducts recommendations)
                 (format_recommended cartItems (slice0 recommendations 10)
                    ∅ []).2).
  { apply format_recommended_origin; [|constructor].
    intros r Hr. destruct (slice0_prefix recommendations 10) as [k E].
    rewrite E. apply elem_of_app. now left. }
  destruct (_ <? 5)%nat; [|exact H1].
  apply pad_popular_origin; [|exact H1].
  intros p Hp. now apply pool_spec.
Qed.

(** X22. Every entry the cart page shows is either a recommendation of the
    hook, shown with the quantity of the first cart line of that product (0
    when it is not in the cart), or a "Popular" admin product that is
    neither in the cart nor among the purchased ids. *)
Theorem formatRecs_origin (recommendations : list Recommendation) :
  Forall
    (fun x : RecItem =>
       (exists r : Recommendation,
          r ∈ recommendations /\ x = format_one cartItems r)
       \/ (x = mkRecItem (item_product x) "Popular" 0%Q 0
           /\ item_product x ∈ adminProducts
           /\ (forall i : CartItem, i ∈ cartItems ->
                 Number_id (id i) <> Number_id (id (item_product x)))
           /\ (forall n : Z, n ∈ purchased ->
                 Some n <> Number_id (id (item_product x)))))
    (formatRecs cartItems purchased adminProducts recommendations).
Proof.
  pose proof (formatRecs_item_origin recommendations) as H.
  eapply List.Forall_impl; [|exact H].
  intros x Hx. exact Hx.
Qed.

Lemma pad_popular_seen_grows (pool : list Product) (seen_ : gset (option Z))
    (formatted : list RecItem) (k : option Z) :
  k ∈ seen_ -> k ∈ (pad_popular pool seen_ formatted).1.
Proof.
  revert seen_ formatted.
  induction pool as [|p rest IH]; intros seen_ formatted Hk;
    cbn [pad_popular]; [exact Hk|].
  destruct (bool_decide _); [now apply IH|].
  match goal with
  | |- context [(5 <=? ?n)%nat] => destruct (5 <=? n)%nat
  end; simpl.
  - now apply elem_of_union_r.
  - apply IH. now apply elem_of_union_r.
Qed.

(** A padding loop that ends with fewer than five entries has been through
    its whole pool. *)
Lemma pad_popular_exhausts (pool : list Product) (seen_ : gset (option Z))
    (formatted : list RecItem) (p : Product) :
  (length (pad_popular pool seen_ formatted).2 < 5)%nat ->
  p ∈ pool ->
  Number_id (id p) ∈ (pad_popular pool seen_ formatted).1.
Proof.
  revert seen_ formatted.
  induction pool as [|q rest IH]; intros seen_ formatted Hlen Hp;
    [now apply elem_of_nil in Hp|].
  cbn [pad_popular] in *.
  destruct (bool_decide (Number_id (id q) ∈ seen_)) eqn:E.
  - apply bool_decide_eq_true in E.
    apply elem_of_cons in Hp as [->|Hp]; [|now apply IH].
    now apply pad_popular_seen_grows.
  - destruct (Nat.leb_spec 5 (length (formatted ++ [mkRecItem q "Popular" 0 0])))
      as [Hge|Hlt]; simpl in *; [lia|].
    apply elem_of_cons in Hp as [->|Hp]; [|now apply IH].
    apply pad_popular_seen_grows, elem_of_union_l. now apply elem_of_singleton.
Qed.

Lemma formatRecs_exhausts (recommendations : list Recommendation)
    (p : Product) :
  (length (formatRecs cartItems purchased adminProducts recommendations) < 5)%nat ->
  p ∈ adminProducts ->
  Number_id (id p) ∉ excluded cartItems purchased ->
  Number_id (id p)
  ∈ item_ids (formatRecs cartItems purchased adminProducts recommendations).
Proof.
  rewrite formatRecs_unfold. simpl.
  set (st := format_recommended cartItems (slice0 recommendations 10) ∅ []).
  assert (Hm : seen_matches st.1 st.2)
    by apply format_recommended_matches, seen_matches_empty.
  destruct (Nat.ltb_spec (length st.2) 5) as [Hlt|Hge]; [|lia].
  intros Hlen Hp Hex.
  apply (pad_popular_matches _ _ _ Hm).
  apply pad_popular_exhausts; [exact Hlen|].
  now apply pool_spec.
Qed.

(** X23. When the cart page shows fewer than five entries, every admin
    product that is neither in the cart nor purchased is among them: the
    padding stops early only for lack of products. *)
Theorem formatRecs_pads_all (recommendations : list Recommendation)
    (p : Product) :
  (length (formatRecs cartItems purchased adminProducts recommendations) < 5)%nat ->
  p ∈ adminProducts ->
  (forall i : CartItem, i ∈ cartItems -> Number_id (id i) <> Number_id (id p)) ->
  (forall n : Z, n ∈ purchased -> Some n <> Number_id (id p)) ->
  Number_id (id p)
  ∈ map (fun x => Number_id (id (item_product x)))
      (formatRecs cartItems purchased adminProducts recommendations).
Proof.
  intros Hlen Hp Hcart Hbought.
  apply formatRecs_exhausts; [exact Hlen | exact Hp |].
  rewrite excluded_spec. intros [(i & Hi & E)|(n & Hn & E)].
  - now apply (Hcart i Hi).
  - now apply (Hbought n Hn).
Qed.

Lemma filter_none {A : Type} (f : A -> bool) (l : list A) :
  (forall x, x ∈ l -> f x = false) -> List.filter f l = [].
Proof.
  induction l as [|x l IH]; intros H; simpl; [reflexivity|].
  rewrite (H x (list_elem_of_here _ _)). apply IH.
  intros y Hy. apply H. now apply list_elem_of_further.
Qed.

(** X24. When every admin product has a numeric id, the random fallback
    never shows anything: if the formatted list is empty, no admin product
    is left outside the cart and the purchased ids, so the list displayed
    is the formatted list. *)
Theorem displayedRecommendations_fallback_idle
    (recommendations : list Recommendation) (draws : list nat) :
  Forall (fun p => is_Some (Number_id (id p))) adminProducts ->
  displayedRecommendations cartItems purchased adminProducts recommendations
    draws
  = formatRecs cartItems purchased adminProducts recommendations.
Proof.
  intros Hnum. unfold displayedRecommendations.
  destruct (Nat.eqb_spec
              (length (formatRecs cartItems purchased adminProducts
                         recommendations)) 0) as [Hlen|Hlen];
    [|reflexivity].
  destruct (0 <? length adminProducts)%nat; [|reflexivity]. simpl.
  destruct (formatRecs cartItems purchased adminProducts recommendations)
    as [|x l] eqn:Ef; [|discriminate].
  rewrite filter_none; [reflexivity|].
  intros p Hp.
  destruct (bool_decide (Number_id (id p) ∈ excluded cartItems purchased))
    eqn:Ex.
  - apply bool_decide_eq_true, excluded_spec in Ex.
    rewrite Forall_forall in Hnum. destruct (Hnum p Hp) as [n Hn].
    destruct Ex as [(i & Hi & E)|(m & Hm & E)].
    + apply andb_false_iff. left. apply negb_false_iff, existsb_exists.
      exists i. split; [now apply list_elem_of_In|].
      rewrite E, Hn. simpl. apply Z.eqb_refl.
    + apply andb_false_iff. right. apply negb_false_iff, bool_decide_eq_true.
      rewrite <- E. now apply list_elem_of_fmap_2.
  - apply bool_decide_eq_false in Ex.
    pose proof (formatRecs_exhausts recommendations p) as H.
    rewrite Ef in H. simpl in H.
    exfalso. eapply elem_of_nil. apply H; [lia | exact Hp | exact Ex].
Qed.
End CartPageOrigin.

(** With product 2 in the cart and product 5 purchased, nothing
    recommended and the catalogue of six products: four entries are shown,
    product 1 among them. *)
Lemma formatRecs_pads_all_witness :
  Some 1
  ∈ map (fun x => Number_id (id (item_product x)))
      (formatRecs cart_with_2 [5] catalogue []).
Proof.
  apply (formatRecs_pads_all cart_with_2 [5] catalogue []
           (sample_product (IdNum 1) "produce" "vegetables" 1 None None None)).
  - apply Nat.ltb_lt. vm_compute. reflexivity.
  - apply list_elem_of_here.
  - intros i Hi. apply list_elem_of_singleton in Hi. subst i. discriminate.
  - intros n Hn. apply list_elem_of_singleton in Hn. subst n. discriminate.
Defined.

(** The catalogue of six products has numeric ids only. *)
Lemma displayedRecommendations_fallback_idle_witness :
  displayedRecommendations cart_with_2 [5] catalogue [] [3%nat; 1%nat]
  = formatRecs cart_with_2 [5] catalogue [].
Proof.
  apply (displayedRecommendations_fallback_idle cart_with_2 [5] catalogue []).
  unfold catalogue. simpl.
  repeat (constructor; [eexists; reflexivity|]). constructor.
Defined.

(** ** The hook and the cart page together *)

Lemma format_one_not_in_cart (cartItems : list CartItem)
    (options : option RecOptions) (r : Recommendation) :
  allowed cartItems options r -> cartQuantity (format_one cartItems r) = 0.
Proof.
  intros [Hcart _]. unfold format_one. simpl.
  destruct (List.find _ cartItems) as [it|] eqn:Hfind; [|reflexivity].
  apply find_some in Hfind as [Hin E]. exfalso.
  apply (Hcart it); [now apply list_elem_of_In|].
  destruct (Number_id (id it)) as [n|], (Number_id (id (product r))) as [m|];
    simpl in E; try discriminate.
  apply Z.eqb_eq in E. now subst.
Qed.

(** X25. At a render whose cart is the cart of the render before it,
    that is, once the effect of the hook has run for this cart, the cart
    page shows every entry with cart quantity 0: none of the products shown
    is in the cart. *)
Theorem formatRecs_caught_up_not_in_cart
    (localeCompare : string -> string -> Q)
    (state : list Recommendation) (renders : list Render) (k : nat)
    (prev r : Render) (returned : list Recommendation)
    (purchased : list Z) (adminProducts : list Product) :
  renders !! k = Some prev ->
  renders !! S k = Some r ->
  render_cartItems r = render_cartItems prev ->
  hook_returns localeCompare state renders !! S k = Some returned ->
  Forall (fun x : RecItem => cartQuantity x = 0)
    (formatRecs (render_cartItems r) purchased adminProducts returned).
Proof.
  intros Hprev _ Hcart Hret.
  rewrite (hook_returns_next _ _ _ _ _ _ Hprev Hret), Hcart.
  pose proof (localCompute_allowed localeCompare (render_cartItems prev)
                (render_allProducts prev) (render_options prev)
                (render_draws prev)) as Hlocal.
  rewrite Forall_forall in Hlocal.
  eapply List.Forall_impl; [|apply formatRecs_item_origin].
  intros x [(rec & Hrec & ->)|(-> & _)].
  - apply (format_one_not_in_cart _ (render_options prev)).
    now apply Hlocal.
  - reflexivity.
Qed.

(** Two renders of the page with product 2 in the cart. *)
Lemma formatRecs_caught_up_not_in_cart_witness :
  Forall (fun x : RecItem => cartQuantity x = 0)
    (formatRecs cart_with_2 [5] catalogue
       (effect_stores codeCompare render_before)).
Proof.
  apply (formatRecs_caught_up_not_in_cart codeCompare []
           [render_before; render_before] 0 render_before render_before
           (effect_stores codeCompare render_before) [5] catalogue);
    reflexivity.
Defined.
